(** * Study Pilot AI: the offline answer engine of the Ask page

    A shallow embedding of [generateAIResponse] and of the tables it reads
    (src/frontend/src/pages/AskPage.jsx), followed by the properties of the
    engine that the design document states.

    Strings.  A query is a sequence of UTF-16 code units; the development
    covers the queries whose code units are below 256 (the Latin-1 range), one
    [ascii] per code unit.  On that range [toLowerCase], [trim], [\s] and [\b]
    are written out exactly as ECMAScript defines them.  All keys and all
    pattern literals of the source are plain ASCII.  Answer bodies are
    payloads that the engine only copies; they are kept as the bytes of the
    source literals. *)

From Stdlib Require Import String Ascii List Bool Arith Lia ZArith QArith Qround.
Import ListNotations.

Local Open Scope string_scope.
Local Open Scope list_scope.
Local Open Scope nat_scope.

(** ** Strings as the engine uses them *)

(** The double-quote character, which occurs inside several answer bodies. *)
Definition dq : string := String (ascii_of_nat 34) EmptyString.

(** [String.prototype.toLowerCase] on one Latin-1 code unit:
    A..Z and the accented capitals U+00C0..U+00DE (without U+00D7). *)
Definition toLowerChar (c : ascii) : ascii :=
  let n := nat_of_ascii c in
  if ((65 <=? n) && (n <=? 90))
     || ((192 <=? n) && (n <=? 222) && negb (n =? 215))
  then ascii_of_nat (n + 32)
  else c.

Fixpoint toLowerCase (s : string) : string :=
  match s with
  | EmptyString => EmptyString
  | String c s' => String (toLowerChar c) (toLowerCase s')
  end.

(** WhiteSpace and LineTerminator code units below 256: TAB, LF, VT, FF, CR,
    SPACE and NO-BREAK SPACE.  Both [trim] and the pattern class [\s] use
    this set. *)
Definition isWhiteSpace (c : ascii) : bool :=
  let n := nat_of_ascii c in
  ((9 <=? n) && (n <=? 13)) || (n =? 32) || (n =? 160).

Definition isEmpty (s : string) : bool :=
  match s with EmptyString => true | String _ _ => false end.

Fixpoint trimStart (s : string) : string :=
  match s with
  | EmptyString => EmptyString
  | String c s' => if isWhiteSpace c then trimStart s' else s
  end.

Fixpoint trimEnd (s : string) : string :=
  match s with
  | EmptyString => EmptyString
  | String c s' =>
      let t := trimEnd s' in
      if isWhiteSpace c && isEmpty t then EmptyString else String c t
  end.

Definition trim (s : string) : string := trimEnd (trimStart s).

Fixpoint startsWith (s p : string) {struct p} : bool :=
  match p, s with
  | EmptyString, _ => true
  | String _ _, EmptyString => false
  | String a p', String b s' => Ascii.eqb a b && startsWith s' p'
  end.

(** [String.prototype.includes]: [sub] occurs in [s] as a contiguous run. *)
Fixpoint includes (s sub : string) : bool :=
  startsWith s sub
  || match s with
     | EmptyString => false
     | String _ s' => includes s' sub
     end.

(** [String.prototype.split] with a one-character separator. *)
Fixpoint split (sep : ascii) (s : string) : list string :=
  match s with
  | EmptyString => [EmptyString]
  | String c s' =>
      if Ascii.eqb c sep then EmptyString :: split sep s'
      else match split sep s' with
           | w :: ws => String c w :: ws
           | [] => [String c EmptyString]
           end
  end.

(** ** Regular expressions

    The fragment of ECMAScript patterns that the three intent patterns are
    written in.  A matcher position is the code unit before the cursor (none
    at the start of the input) together with the rest of the input. *)

Inductive regex : Type :=
| Chars (lit : string)
| Spaces
| Alt (r1 r2 : regex)
| Cat (r1 r2 : regex)
| WordBoundary
| InputStart.

Definition Pos : Type := (option ascii * string)%type.

(** Word characters of [\b]: A..Z, a..z, 0..9 and underscore. *)
Definition isWordChar (c : ascii) : bool :=
  let n := nat_of_ascii c in
  ((65 <=? n) && (n <=? 90)) || ((97 <=? n) && (n <=? 122))
  || ((48 <=? n) && (n <=? 57)) || (n =? 95).

(** Canonicalize of the [i] flag (without [u]) on a Latin-1 code unit: the
    upper-case form when it is a single code unit.  The two units whose
    upper-case form lies above 255 (U+00B5, U+00FF) stand for themselves;
    canonical forms are only ever compared with each other, and no other unit
    below 256 shares theirs. *)
Definition canonicalize (c : ascii) : ascii :=
  let n := nat_of_ascii c in
  if ((97 <=? n) && (n <=? 122))
     || ((224 <=? n) && (n <=? 254) && negb (n =? 247))
  then ascii_of_nat (n - 32)
  else c.

Definition sameChar (ignoreCase : bool) (c l : ascii) : bool :=
  if ignoreCase then Ascii.eqb (canonicalize c) (canonicalize l)
  else Ascii.eqb c l.

Fixpoint matchChars (ignoreCase : bool) (lit : string) (p : Pos) : list Pos :=
  match lit with
  | EmptyString => [p]
  | String l lit' =>
      match snd p with
      | EmptyString => []
      | String c rest =>
          if sameChar ignoreCase c l
          then matchChars ignoreCase lit' (Some c, rest)
          else []
      end
  end.

(** [\s*], greedy: the longest run first, then every shorter one. *)
Fixpoint matchSpaces (prev : option ascii) (rest : string) : list Pos :=
  match rest with
  | EmptyString => [(prev, rest)]
  | String c rest' =>
      if isWhiteSpace c
      then matchSpaces (Some c) rest' ++ [(prev, rest)]
      else [(prev, rest)]
  end.

Definition wordBefore (p : Pos) : bool :=
  match fst p with Some c => isWordChar c | None => false end.

Definition wordAfter (p : Pos) : bool :=
  match snd p with String c _ => isWordChar c | EmptyString => false end.

Definition atBoundary (p : Pos) : bool := xorb (wordBefore p) (wordAfter p).

(** All positions at which a match of [r] that starts at [p] can end, in the
    order a backtracking matcher tries them. *)
Fixpoint run (ignoreCase : bool) (r : regex) (p : Pos) : list Pos :=
  match r with
  | Chars lit => matchChars ignoreCase lit p
  | Spaces => matchSpaces (fst p) (snd p)
  | Alt r1 r2 => run ignoreCase r1 p ++ run ignoreCase r2 p
  | Cat r1 r2 => flat_map (run ignoreCase r2) (run ignoreCase r1 p)
  | WordBoundary => if atBoundary p then [p] else []
  | InputStart => match fst p with None => [p] | Some _ => [] end
  end.

Definition matchesAt (ignoreCase : bool) (r : regex) (p : Pos) : bool :=
  match run ignoreCase r p with [] => false | _ :: _ => true end.

Fixpoint searchFrom (ignoreCase : bool) (r : regex)
         (prev : option ascii) (rest : string) : bool :=
  matchesAt ignoreCase r (prev, rest)
  || match rest with
     | EmptyString => false
     | String c rest' => searchFrom ignoreCase r (Some c) rest'
     end.

(** [RegExp.prototype.test] for a pattern without the [g] and [y] flags. *)
Definition test (ignoreCase : bool) (r : regex) (s : string) : bool :=
  searchFrom ignoreCase r None s.

(** [/^(hi|hello|hey|good\s*(morning|afternoon|evening)|howdy|sup)\b/]; the
    group between [^] and [\b] first. *)
Definition greetingAlts : regex :=
  Alt (Chars "hi")
 (Alt (Chars "hello")
 (Alt (Chars "hey")
 (Alt (Cat (Chars "good")
        (Cat Spaces
           (Alt (Chars "morning") (Alt (Chars "afternoon") (Chars "evening")))))
 (Alt (Chars "howdy") (Chars "sup"))))).

Definition greetingRe : regex :=
  Cat InputStart (Cat greetingAlts WordBoundary).

(** [/thank|thanks|thx|appreciate/] *)
Definition thanksRe : regex :=
  Alt (Chars "thank") (Alt (Chars "thanks") (Alt (Chars "thx") (Chars "appreciate"))).

(** [/who\s*(are|r)\s*you|what\s*(are|r)\s*you|your\s*name|about\s*you/] *)
Definition identityRe : regex :=
  Alt (Cat (Chars "who")
        (Cat Spaces (Cat (Alt (Chars "are") (Chars "r")) (Cat Spaces (Chars "you")))))
 (Alt (Cat (Chars "what")
        (Cat Spaces (Cat (Alt (Chars "are") (Chars "r")) (Cat Spaces (Chars "you")))))
 (Alt (Cat (Chars "your") (Cat Spaces (Chars "name")))
      (Cat (Chars "about") (Cat Spaces (Chars "you"))))).

(** ** The knowledge tables *)

Record KnowledgeEntry : Type := mkKnowledgeEntry
  { answer : string; confidence : Q; topic : string }.

Record ExtendedTopic : Type := mkExtendedTopic
  { text : string; conf : Q; top : string }.

(** [Object.entries(knowledgeBase)]: every key is a non-numeric string, so the
    entries come in the order in which the literal lists them. *)
Definition knowledgeBase : list (string * KnowledgeEntry) :=
  [ ("binary search tree",
     {| answer := "A **Binary Search Tree (BST)** is a hierarchical data structure where each node has at most two children, with a special ordering property:

**Key Properties:**
• Left subtree contains nodes with keys **less than** the parent
• Right subtree contains nodes with keys **greater than** the parent
• Both subtrees are also BSTs (recursive property)

**Time Complexities:**
• Search: O(log n) average, O(n) worst case
• Insert: O(log n) average, O(n) worst case
• Delete: O(log n) average, O(n) worst case

**Example Structure:**
```
       8
      / \
     3   10
    / \    \
   1   6    14
```

**Common Operations:**
• **Inorder traversal** gives sorted sequence
• **Search** - compare with root, go left if smaller, right if larger
• **Insert** - find correct position maintaining BST property";
        confidence := 0.95%Q;
        topic := "Data Structures" |});
    ("quick sort",
     {| answer := "**Quick Sort** is a highly efficient, divide-and-conquer sorting algorithm invented by Tony Hoare.

**How it works:**
1. **Choose a pivot** element from the array
2. **Partition**: Rearrange elements so smaller ones are left of pivot, larger ones are right
3. **Recursively** apply to left and right subarrays

**Time Complexity:**
• Best/Average: **O(n log n)**
• Worst case: **O(n²)** (when array is already sorted with bad pivot choice)

**Space Complexity:** O(log n) for the recursive call stack

**Code Example (Pseudocode):**
```
function quickSort(arr, low, high):
    if low < high:
        pivotIndex = partition(arr, low, high)
        quickSort(arr, low, pivotIndex - 1)
        quickSort(arr, pivotIndex + 1, high)
```

**Why it's popular:**
• Very fast in practice
• In-place sorting (low memory usage)
• Cache-friendly";
        confidence := 0.94%Q;
        topic := "Algorithms" |});
    ("merge sort",
     {| answer := "**Merge Sort** is a stable, divide-and-conquer sorting algorithm with guaranteed O(n log n) performance.

**Algorithm Steps:**
1. **Divide** the array into two halves
2. **Recursively** sort each half
3. **Merge** the sorted halves back together

**Time Complexity:** Always **O(n log n)** - consistent performance!

**Space Complexity:** O(n) - requires additional memory

**Key Advantages:**
• Guaranteed O(n log n) even in worst case
• Stable sort (preserves relative order of equal elements)
• Great for linked lists and external sorting

**Merge Process:**
```
[3,7,2,5] → Split → [3,7] and [2,5]
[3,7] → Split → [3] and [7] → Merge → [3,7]
[2,5] → Split → [2] and [5] → Merge → [2,5]
[3,7] + [2,5] → Merge → [2,3,5,7]
```";
        confidence := 0.93%Q;
        topic := "Algorithms" |});
    ("linked list",
     {| answer := "A **Linked List** is a linear data structure where elements are stored in nodes, with each node pointing to the next.

**Types:**
• **Singly Linked List** - nodes point only forward
• **Doubly Linked List** - nodes point forward and backward
• **Circular Linked List** - last node points to first

**Structure:**
```
[Data|Next] → [Data|Next] → [Data|Next] → NULL
   Head                          Tail
```

**Time Complexities:**
• Access: O(n)
• Search: O(n)
• Insert at head: **O(1)**
• Insert at tail: O(n) or O(1) with tail pointer
• Delete: O(n)

**Advantages over Arrays:**
• Dynamic size - grows/shrinks easily
• Efficient insertion/deletion at known positions
• No memory waste from pre-allocation

**Disadvantages:**
• No random access (must traverse)
• Extra memory for pointers";
        confidence := 0.92%Q;
        topic := "Data Structures" |});
    ("hash table",
     {| answer := "A **Hash Table** (or Hash Map) is a data structure that maps keys to values using a hash function for ultra-fast lookups.

**How it works:**
1. **Hash Function** converts key → index
2. Store value at that index
3. Handle collisions when different keys hash to same index

**Time Complexity (Average):**
• Insert: **O(1)**
• Search: **O(1)**
• Delete: **O(1)**

**Collision Resolution Strategies:**
• **Chaining** - Each bucket holds a linked list
• **Open Addressing** - Find next empty slot (linear/quadratic probing)

**Load Factor = n/m** (items/buckets)
• Keep below 0.7 for good performance
• Rehash when too full

**Real-world uses:**
• Database indexing
• Caching
• Symbol tables in compilers
• JavaScript objects, Python dicts";
        confidence := 0.94%Q;
        topic := "Data Structures" |});
    ("stack",
     {| answer := "A **Stack** is a linear data structure following the **LIFO** principle (Last In, First Out).

**Think of it like:** A stack of plates - you can only add/remove from the top!

**Core Operations:**
• **push(x)** - Add element to top | O(1)
• **pop()** - Remove top element | O(1)
• **peek()/top()** - View top element | O(1)
• **isEmpty()** - Check if empty | O(1)

**Implementation:**
```
Stack: [1, 2, 3, 4] ← TOP
push(5): [1, 2, 3, 4, 5]
pop(): returns 5, stack becomes [1, 2, 3, 4]
```

**Real-world Applications:**
• Function call management (call stack)
• Undo/Redo operations
• Expression evaluation
• Backtracking algorithms
• Browser history (back button)";
        confidence := 0.95%Q;
        topic := "Data Structures" |});
    ("queue",
     {| answer := "A **Queue** is a linear data structure following the **FIFO** principle (First In, First Out).

**Think of it like:** A line at a store - first person in line gets served first!

**Core Operations:**
• **enqueue(x)** - Add element to rear | O(1)
• **dequeue()** - Remove front element | O(1)
• **front()** - View front element | O(1)
• **isEmpty()** - Check if empty | O(1)

**Types of Queues:**
• **Simple Queue** - Basic FIFO
• **Circular Queue** - Efficient use of space
• **Priority Queue** - Elements have priority levels
• **Deque** - Double-ended queue

**Applications:**
• Process scheduling (OS)
• Print job management
• Breadth-First Search (BFS)
• Request handling in web servers
• Message queues in distributed systems";
        confidence := 0.94%Q;
        topic := "Data Structures" |});
    ("graph",
     {| answer := "A **Graph** is a non-linear data structure consisting of **vertices (nodes)** and **edges (connections)**.

**Types:**
• **Directed** (edges have direction) vs **Undirected**
• **Weighted** (edges have values) vs **Unweighted**
• **Cyclic** vs **Acyclic**

**Representations:**
1. **Adjacency Matrix** - 2D array
   - Space: O(V²)
   - Edge lookup: O(1)

2. **Adjacency List** - Array of lists
   - Space: O(V + E)
   - Better for sparse graphs

**Common Algorithms:**
• **BFS** - Level-by-level traversal
• **DFS** - Deep exploration first
• **Dijkstra's** - Shortest path
• **Kruskal's/Prim's** - Minimum spanning tree

**Real-world Examples:**
• Social networks (friends as edges)
• Maps (cities as nodes, roads as edges)
• Web pages (hyperlinks)";
        confidence := 0.93%Q;
        topic := "Data Structures" |});
    ("heap",
     {| answer := "A **Heap** is a specialized tree-based data structure that satisfies the **heap property**.

**Types:**
• **Max Heap** - Parent ≥ Children (root is maximum)
• **Min Heap** - Parent ≤ Children (root is minimum)

**Properties:**
• Complete binary tree
• Efficiently implemented as an array
• Height: O(log n)

**Operations:**
• **Insert:** O(log n) - Add and bubble up
• **Extract Max/Min:** O(log n) - Remove root, heapify
• **Peek:** O(1) - View root
• **Build Heap:** O(n) - From unsorted array

**Array Representation:**
```
For node at index i:
• Left child: 2i + 1
• Right child: 2i + 2
• Parent: (i-1) / 2
```

**Applications:**
• Priority Queues
• Heap Sort
• Dijkstra's Algorithm
• Scheduling algorithms";
        confidence := 0.92%Q;
        topic := "Data Structures" |});
    ("first law of thermodynamics",
     {| answer := ("The **First Law of Thermodynamics** is the law of **energy conservation** applied to thermodynamic systems.

**Statement:**
*" ++ dq ++ "Energy cannot be created or destroyed, only transformed from one form to another." ++ dq ++ "*

**Mathematical Form:**
**ΔU = Q - W**

Where:
• **ΔU** = Change in internal energy
• **Q** = Heat added to system (+) or removed (-)
• **W** = Work done BY the system

**Key Concepts:**
• Internal energy is a **state function** (path-independent)
• Heat and work are **path functions** (depend on process)
• Energy is always conserved in isolated systems

**Examples:**
• Heating water (Q → ΔU)
• Car engine (fuel's chemical energy → mechanical work)
• Refrigerator (work input → heat transfer)

**Sign Conventions:**
• Q > 0: Heat INTO system
• W > 0: Work done BY system");
        confidence := 0.95%Q;
        topic := "Thermodynamics" |});
    ("second law of thermodynamics",
     {| answer := ("The **Second Law of Thermodynamics** governs the **direction of natural processes** and introduces **entropy**.

**Key Statements:**

1. **Clausius Statement:**
*" ++ dq ++ "Heat cannot spontaneously flow from cold to hot." ++ dq ++ "*

2. **Kelvin-Planck Statement:**
*" ++ dq ++ "No heat engine can be 100% efficient." ++ dq ++ "*

3. **Entropy Statement:**
*" ++ dq ++ "The total entropy of an isolated system always increases." ++ dq ++ "*

**Mathematical Form:**
**ΔS ≥ Q/T**

**Entropy (S):**
• Measure of disorder/randomness
• Always increases in spontaneous processes
• Universe's entropy is constantly increasing

**Implications:**
• Perfect efficiency is impossible
• Time has a direction (entropy arrow)
• Heat engines have maximum theoretical efficiency:
  **η = 1 - T_cold/T_hot** (Carnot efficiency)");
        confidence := 0.94%Q;
        topic := "Thermodynamics" |});
    ("carnot cycle",
     {| answer := "The **Carnot Cycle** is a theoretical thermodynamic cycle that represents the most efficient heat engine possible.

**Four Reversible Processes:**
1. **Isothermal Expansion** (A→B): Gas absorbs heat Q_H at T_H
2. **Adiabatic Expansion** (B→C): Gas expands without heat exchange
3. **Isothermal Compression** (C→D): Gas releases heat Q_C at T_C
4. **Adiabatic Compression** (D→A): Gas returns to initial state

**Carnot Efficiency:**
**η = 1 - T_C/T_H = (T_H - T_C)/T_H**

Where T is in Kelvin!

**Key Points:**
• No real engine can exceed Carnot efficiency
• Efficiency depends ONLY on temperatures
• Higher T_H or lower T_C → Better efficiency
• 100% efficiency only if T_C = 0K (impossible)

**Example:**
Steam engine with T_H = 500K, T_C = 300K:
η = 1 - 300/500 = 40% maximum efficiency";
        confidence := 0.93%Q;
        topic := "Thermodynamics" |});
    ("entropy",
     {| answer := "**Entropy (S)** is a fundamental thermodynamic property measuring the **disorder or randomness** of a system.

**Mathematical Definition:**
**dS = δQ_rev / T**

For reversible processes: ΔS = ∫(dQ/T)

**Key Properties:**
• State function (path-independent)
• SI Unit: J/K (Joules per Kelvin)
• Always increases in isolated systems

**Boltzmann's Statistical View:**
**S = k_B × ln(Ω)**
Where Ω = number of microstates

**Examples of Entropy Increase:**
• Ice melting (ordered solid → disordered liquid)
• Gas expanding into vacuum
• Mixing of two gases
• Heat flowing from hot to cold

**Important Equations:**
• Ideal gas: ΔS = nC_v ln(T₂/T₁) + nR ln(V₂/V₁)
• Phase change: ΔS = Q/T = mL/T";
        confidence := 0.92%Q;
        topic := "Thermodynamics" |});
    ("fourier transform",
     {| answer := "The **Fourier Transform** converts a signal from **time domain to frequency domain**, revealing its frequency components.

**Mathematical Definition:**
**X(f) = ∫ x(t) × e^(-j2πft) dt**

**Key Concepts:**
• Any signal can be represented as sum of sinusoids
• Transform shows amplitude & phase at each frequency
• Inverse FT converts back to time domain

**Types:**
• **Continuous FT (CFT)** - For continuous signals
• **Discrete FT (DFT)** - For sampled signals
• **Fast FT (FFT)** - Efficient DFT algorithm, O(n log n)

**Properties:**
• Linearity: F{ax + by} = aF{x} + bF{y}
• Time shift → Phase shift in frequency
• Convolution in time → Multiplication in frequency

**Applications:**
• Audio/Image compression (MP3, JPEG)
• Signal filtering
• Spectrum analysis
• Communication systems";
        confidence := 0.94%Q;
        topic := "Signal Processing" |});
    ("nyquist theorem",
     {| answer := ("The **Nyquist-Shannon Sampling Theorem** defines the minimum sampling rate needed to accurately capture a signal.

**Statement:**
*" ++ dq ++ "To perfectly reconstruct a signal, sample at **at least twice** the highest frequency component." ++ dq ++ "*

**Mathematical Form:**
**f_s ≥ 2 × f_max**

Where:
• **f_s** = Sampling frequency
• **f_max** = Highest frequency in signal (bandwidth)
• **f_s/2** = Nyquist frequency

**Aliasing:**
If sampling is too slow (f_s < 2×f_max):
• High frequencies appear as false low frequencies
• Information is lost and cannot be recovered
• Sounds distorted in audio; patterns in images (Moiré)

**Practical Example:**
Audio CD: f_max = 20 kHz (human hearing limit)
f_s = 44.1 kHz > 2 × 20 kHz ✓

**Anti-aliasing:**
• Use low-pass filter before sampling
• Remove frequencies above f_s/2");
        confidence := 0.93%Q;
        topic := "Signal Processing" |});
    ("convolution",
     {| answer := "**Convolution** is a mathematical operation that combines two signals to produce a third, showing how one signal modifies the other.

**Continuous Definition:**
**(f * g)(t) = ∫ f(τ) × g(t - τ) dτ**

**Discrete Definition:**
**(f * g)[n] = Σ f[k] × g[n - k]**

**Steps to Compute:**
1. Flip one signal (reverse it)
2. Slide it across the other
3. At each position, multiply and sum

**Key Properties:**
• Commutative: f * g = g * f
• Associative: (f * g) * h = f * (g * h)
• Distributive: f * (g + h) = f*g + f*h

**In Frequency Domain:**
Convolution in time = Multiplication in frequency
**F{f * g} = F{f} × F{g}**

**Applications:**
• Image blurring/sharpening
• Audio effects (reverb, echo)
• System response analysis
• Neural networks (CNNs)";
        confidence := 0.92%Q;
        topic := "Signal Processing" |});
    ("recursion",
     {| answer := "**Recursion** is a programming technique where a function calls itself to solve smaller instances of the same problem.

**Key Components:**
1. **Base Case** - Condition to stop recursion
2. **Recursive Case** - Function calls itself with simpler input

**Example - Factorial:**
```javascript
function factorial(n) {
    if (n <= 1) return 1;        // Base case
    return n * factorial(n - 1); // Recursive case
}
// factorial(5) = 5 × 4 × 3 × 2 × 1 = 120
```

**How it works (Call Stack):**
```
factorial(4)
  → 4 × factorial(3)
    → 3 × factorial(2)
      → 2 × factorial(1)
        → returns 1
      → returns 2
    → returns 6
  → returns 24
```

**Common Applications:**
• Tree/Graph traversal
• Divide and conquer algorithms
• Mathematical sequences (Fibonacci)
• Backtracking problems";
        confidence := 0.95%Q;
        topic := "Programming" |});
    ("big o notation",
     {| answer := "**Big O Notation** describes the **upper bound** of an algorithm's time or space complexity as input grows.

**Common Complexities (Best to Worst):**

| Notation | Name | Example |
|----------|------|---------|
| O(1) | Constant | Array access |
| O(log n) | Logarithmic | Binary search |
| O(n) | Linear | Simple loop |
| O(n log n) | Linearithmic | Merge sort |
| O(n²) | Quadratic | Nested loops |
| O(2ⁿ) | Exponential | Recursive Fibonacci |
| O(n!) | Factorial | Permutations |

**Rules:**
• Drop constants: O(2n) → O(n)
• Drop lower terms: O(n² + n) → O(n²)
• Consider worst case

**Analysis Tips:**
• Single loop over n items → O(n)
• Nested loops → O(n²)
• Halving each step → O(log n)
• Recursive with branching → Often exponential";
        confidence := 0.94%Q;
        topic := "Algorithms" |});
    ("dynamic programming",
     {| answer := "**Dynamic Programming (DP)** is an optimization technique that solves complex problems by breaking them into overlapping subproblems.

**Key Principles:**
1. **Optimal Substructure** - Optimal solution contains optimal solutions to subproblems
2. **Overlapping Subproblems** - Same subproblems are solved multiple times

**Approaches:**
• **Top-Down (Memoization)** - Recursive with caching
• **Bottom-Up (Tabulation)** - Iterative, building from smallest subproblems

**Example - Fibonacci:**
```javascript
// Without DP: O(2ⁿ) - Exponential!
// With DP: O(n) - Linear!

function fibDP(n) {
    const dp = [0, 1];
    for (let i = 2; i <= n; i++) {
        dp[i] = dp[i-1] + dp[i-2];
    }
    return dp[n];
}
```

**Classic DP Problems:**
• Longest Common Subsequence
• 0/1 Knapsack
• Edit Distance
• Coin Change
• Matrix Chain Multiplication";
        confidence := 0.93%Q;
        topic := "Algorithms" |});
    ("what is",
     {| answer := "I'd be happy to explain that concept! Could you be a bit more specific about what you'd like to learn about? 

For example, you could ask about:
• **Data Structures** - BST, Hash Tables, Graphs, Heaps
• **Algorithms** - Sorting, Searching, Dynamic Programming
• **Thermodynamics** - Laws, Entropy, Carnot Cycle
• **Signal Processing** - Fourier Transform, Convolution
• **Programming** - Recursion, Big O, OOP concepts

Just let me know what topic interests you! 🎯";
        confidence := 0.7%Q;
        topic := "General" |});
    ("how does",
     {| answer := "Great question! Understanding *how* things work is key to mastering any subject.

I can explain mechanisms and processes for topics like:
• **How sorting algorithms work** (Quick Sort, Merge Sort, etc.)
• **How data structures operate** (BST operations, hashing)
• **How thermodynamic cycles function** (Carnot, Otto, Diesel)
• **How signal processing transforms work** (FFT, Convolution)

Could you specify which concept you'd like me to break down step by step? 🔍";
        confidence := 0.7%Q;
        topic := "General" |});
    ("explain",
     {| answer := "I love explaining things! Teaching is one of my favorite things to do.

I can break down complex topics into simple, digestible explanations. Popular topics include:
• Core CS concepts (algorithms, data structures)
• Physics principles (thermodynamics, mechanics)
• Math fundamentals (calculus, linear algebra)
• Signal processing techniques

What would you like me to explain? I'll make sure to include examples and analogies to make it crystal clear! ✨";
        confidence := 0.7%Q;
        topic := "General" |});
    ("help",
     {| answer := ("Of course! I'm here to help you succeed in your studies! 📚

**Here's what I can assist with:**

🎓 **Learning New Concepts**
Ask me to explain any topic from your courses

📝 **Problem Solving**
Walk through examples step by step

🧠 **Exam Preparation**
Review key concepts and common questions

💡 **Clarifying Doubts**
Get unstuck on confusing topics

**Try asking something like:**
• " ++ dq ++ "What is a Binary Search Tree?" ++ dq ++ "
• " ++ dq ++ "Explain the First Law of Thermodynamics" ++ dq ++ "
• " ++ dq ++ "How does Quick Sort work?" ++ dq ++ "

What would you like to learn today?");
        confidence := 0.85%Q;
        topic := "General" |}) ].

(** The extended keyword table, in the order of its literal. *)
Definition extendedTopics : list (string * ExtendedTopic) :=
  [ ("array",
     {| text := "**Arrays** are fundamental data structures that store elements in contiguous memory.

**Key Properties:**
• Fixed size (in most languages)
• O(1) random access via index
• O(n) insertion/deletion

**Operations:**
• Access: arr[i] - O(1)
• Search: O(n) linear, O(log n) if sorted
• Insert/Delete: O(n) due to shifting";
        conf := 0.9%Q;
        top := "Data Structures" |});
    ("pointer",
     {| text := "**Pointers** are variables that store memory addresses.

**Key Concepts:**
• Declaration: int *ptr;
• Address-of operator: &variable
• Dereference: *ptr

**Common Uses:**
• Dynamic memory allocation
• Passing by reference
• Data structures (linked lists, trees)";
        conf := 0.88%Q;
        top := "Programming" |});
    ("oop",
     {| text := "**Object-Oriented Programming (OOP)** is a paradigm based on objects.

**Four Pillars:**
• **Encapsulation** - Bundling data with methods
• **Inheritance** - Classes inherit from parents
• **Polymorphism** - Same interface, different implementations
• **Abstraction** - Hide complexity, show essentials";
        conf := 0.92%Q;
        top := "Programming" |});
    ("sql",
     {| text := "**SQL (Structured Query Language)** manages relational databases.

**Core Commands:**
• SELECT - Query data
• INSERT - Add records
• UPDATE - Modify data
• DELETE - Remove records
• JOIN - Combine tables";
        conf := 0.9%Q;
        top := "Databases" |});
    ("complexity",
     {| text := "**Time & Space Complexity** measure algorithm efficiency.

**Time Complexity:** How runtime grows with input
**Space Complexity:** Memory usage growth

**Common Classes:**
O(1) < O(log n) < O(n) < O(n log n) < O(n²) < O(2ⁿ)";
        conf := 0.91%Q;
        top := "Algorithms" |});
    ("bfs",
     {| text := "**Breadth-First Search (BFS)** explores graphs level by level.

**Algorithm:**
1. Start from source, add to queue
2. Dequeue node, visit neighbors
3. Add unvisited neighbors to queue
4. Repeat until queue empty

**Time: O(V+E) | Space: O(V)**
**Uses:** Shortest path in unweighted graphs";
        conf := 0.92%Q;
        top := "Algorithms" |});
    ("dfs",
     {| text := "**Depth-First Search (DFS)** explores as far as possible before backtracking.

**Algorithm:**
1. Start from source
2. Visit node, mark visited
3. Recursively visit unvisited neighbors
4. Backtrack when stuck

**Time: O(V+E) | Space: O(V)**
**Uses:** Path finding, cycle detection, topological sort";
        conf := 0.92%Q;
        top := "Algorithms" |});
    ("binary search",
     {| text := "**Binary Search** finds elements in sorted arrays efficiently.

**Algorithm:**
1. Compare target with middle element
2. If equal, found!
3. If target < middle, search left half
4. If target > middle, search right half

**Time: O(log n)** - Halves search space each step!";
        conf := 0.94%Q;
        top := "Algorithms" |}) ].

(** ** Fixed texts *)

Definition greetingResponse : string :=
  "Hey there! 👋 Great to see you!

I'm Study Pilot AI, ready to help you master any topic!

**Popular topics I can explain:**
• 🌳 Data Structures & Algorithms
• 🔥 Thermodynamics
• 📊 Signal Processing
• 💻 Programming Concepts

What would you like to learn? 🚀".

Definition thanksResponse : string :=
  "You're welcome! 😊 Happy to help!

Feel free to ask more questions anytime. Keep crushing those studies! 📚✨".

Definition identityResponse : string :=
  "I'm **Study Pilot AI** 🤖 - your personal learning companion!

**What I do:**
• Explain complex topics simply
• Help with CS, Physics, Math & more
• Provide examples and code snippets
• Make learning engaging!

**Ask me anything** - I'm here 24/7! 🎓".

Definition fallbackResponse (pick : string) : string :=
  ("Interesting question! 🤔

I'm knowledgeable about:
• **Data Structures** - Arrays, Trees, Graphs, Hash Tables
• **Algorithms** - Sorting, Searching, DP
• **Thermodynamics** - Laws, Entropy, Cycles
• **Signal Processing** - FFT, Convolution
• **Programming** - OOP, Recursion, Complexity

**Try:** " ++ dq)
  ++ pick ++
  (dq ++ "

Or rephrase and I'll help! 💡").

Definition suggestions : list string :=
  [ "Binary Search Tree"; "Quick Sort"; "Thermodynamics"; "Fourier Transform"; "Dynamic Programming"; "Big O Notation" ].

Definition friendlyPrefixes : list string :=
  [ "Great question! ";
    "Ah, I see what you're asking! ";
    "Let me explain that for you. ";
    "That's an interesting topic! ";
    "Happy to help with this! " ].

Definition friendlySuffixes : list string :=
  [ "

Does that make sense? Feel free to ask follow-up questions! 😊";
    "

Let me know if you'd like me to explain any part in more detail!";
    "

Hope that helps! What else would you like to know?";
    "

Anything else you're curious about?" ].

(** ** The response generator *)

(** The variables [response], [confidence] and [topic] of the timer callback.
    [response] starts as [null]. *)
Record Locals : Type := mkLocals
  { response : option string; curConfidence : Q; curTopic : string }.

(** [!response]: [null] and the empty string are falsy. *)
Definition falsy (r : option string) : bool :=
  match r with
  | None => true
  | Some s => isEmpty s
  end.

(** Score of one key against the normalised query. *)
Definition scoreKey (lowerQuery key : string) : nat :=
  let keyWords := split " " key in
  if includes lowerQuery key then length keyWords * 3
  else fold_left
         (fun score word => if includes lowerQuery word then score + 1 else score)
         keyWords 0.

(** The loop over the primary table, carrying [bestMatch] and [bestScore]. *)
Definition bestStep (lowerQuery : string)
           (acc : option KnowledgeEntry * nat) (kv : string * KnowledgeEntry)
  : option KnowledgeEntry * nat :=
  let score := scoreKey lowerQuery (fst kv) in
  if snd acc <? score then (Some (snd kv), score) else acc.

Definition bestOf (lowerQuery : string) (table : list (string * KnowledgeEntry))
  : option KnowledgeEntry * nat :=
  fold_left (bestStep lowerQuery) table (None, 0).

Definition primaryStage (lowerQuery : string) (st : Locals) : Locals :=
  let (bestMatch, bestScore) := bestOf lowerQuery knowledgeBase in
  if 1 <=? bestScore then
    match bestMatch with
    | Some m => {| response := Some (answer m);
                   curConfidence := confidence m;
                   curTopic := topic m |}
    | None => st
    end
  else st.

(** The loop over the extended table; it leaves at the first hit. *)
Fixpoint extendedLoop (lowerQuery : string)
         (table : list (string * ExtendedTopic)) (st : Locals) : Locals :=
  match table with
  | [] => st
  | (kw, data) :: table' =>
      if includes lowerQuery kw
      then {| response := Some (text data);
              curConfidence := conf data;
              curTopic := top data |}
      else extendedLoop lowerQuery table' st
  end.

Definition extendedStage (lowerQuery : string) (st : Locals) : Locals :=
  if falsy (response st) then extendedLoop lowerQuery extendedTopics st else st.

Definition overrideWith (body : string) : Locals :=
  {| response := Some body; curConfidence := 0.98%Q; curTopic := "General" |}.

Definition greetingStage (lowerQuery : string) (st : Locals) : Locals :=
  if test false greetingRe lowerQuery then overrideWith greetingResponse else st.

Definition thanksStage (lowerQuery : string) (st : Locals) : Locals :=
  if test false thanksRe lowerQuery then overrideWith thanksResponse else st.

Definition identityStage (lowerQuery : string) (st : Locals) : Locals :=
  if test false identityRe lowerQuery then overrideWith identityResponse else st.

(** [suggestions[Math.floor(r * suggestions.length)]]; an index outside the
    array reads [undefined], which a template literal prints as such. *)
Definition pickSuggestion (r : Q) : string :=
  let i := Qfloor (r * inject_Z (Z.of_nat (length suggestions))) in
  if (i <? 0)%Z then "undefined"
  else nth (Z.to_nat i) suggestions "undefined".

Definition fallbackStage (pickDraw : Q) (st : Locals) : Locals :=
  if falsy (response st)
  then {| response := Some (fallbackResponse (pickSuggestion pickDraw));
          curConfidence := 0.65%Q;
          curTopic := curTopic st |}
  else st.

(** The object the promise resolves with. *)
Record Resolved : Type := mkResolved
  { resAnswer : option string; resConfidence : Q; resTopic : string;
    isLocal : bool }.

(** State of the callback before the fallback check. *)
Definition matched (lowerQuery : string) : Locals :=
  let st := {| response := None; curConfidence := 0.85%Q; curTopic := "General" |} in
  let st := primaryStage lowerQuery st in
  let st := extendedStage lowerQuery st in
  let st := greetingStage lowerQuery st in
  let st := thanksStage lowerQuery st in
  identityStage lowerQuery st.

(** Body of the timer callback. *)
Definition callback (lowerQuery : string) (pickDraw : Q) : Resolved :=
  let st := fallbackStage pickDraw (matched lowerQuery) in
  {| resAnswer := response st;
     resConfidence := curConfidence st;
     resTopic := curTopic st;
     isLocal := true |}.

(** One entry of the history the page passes in: [{ type, content }]. *)
Inductive MessageType : Type := user | ai | system.

Record HistoryEntry : Type := mkHistoryEntry
  { type : MessageType; content : string }.

(** The values [Math.random()] returns to one call of the generator: the
    first sets the delay, the second is read only by the fallback. *)
Record Draws : Type := mkDraws { thinkingDraw : Q; pickDraw : Q }.

Definition normalize (query : string) : string := trim (toLowerCase query).

(** [generateAIResponse]: the promise is the delay of the timer, in
    milliseconds, and the value it resolves with. *)
Definition generateAIResponse (query : string)
           (conversationHistory : list HistoryEntry) (d : Draws) : Q * Resolved :=
  let lowerQuery := normalize query in
  let thinkingTime := (800 + thinkingDraw d * 1200)%Q in
  (thinkingTime, callback lowerQuery (pickDraw d)).

(** The message the page appends: a friendly prefix and suffix around the
    answer; confidence and topic are passed on. *)
Record AiMessage : Type := mkAiMessage
  { msgContent : string; msgConfidence : Q; msgTopic : string }.

Definition pickFrom (l : list string) (r : Q) : string :=
  let i := Qfloor (r * inject_Z (Z.of_nat (length l))) in
  if (i <? 0)%Z then "undefined" else nth (Z.to_nat i) l "undefined".

Definition composeMessage (data : Resolved) (prefixDraw suffixDraw : Q) : AiMessage :=
  let prefix := pickFrom friendlyPrefixes prefixDraw in
  let suffix := pickFrom friendlySuffixes suffixDraw in
  {| msgContent := prefix ++ match resAnswer data with Some a => a | None => "null" end
                   ++ suffix;
     msgConfidence := resConfidence data;
     msgTopic := resTopic data |}.

(** ** Specification vocabulary *)

(** [sub] occurs in [s] as a contiguous substring. *)
Definition contains (s sub : string) : Prop :=
  exists a b, s = (a ++ sub ++ b)%string.

(** The state a primary hit leaves behind. *)
Definition reported (m : KnowledgeEntry) : Locals :=
  {| response := Some (answer m);
     curConfidence := confidence m;
     curTopic := topic m |}.

(** The state an extended hit leaves behind. *)
Definition reportedExt (d : ExtendedTopic) : Locals :=
  {| response := Some (text d); curConfidence := conf d; curTopic := top d |}.

(** The state at the start of the callback. *)
Definition initial : Locals :=
  {| response := None; curConfidence := 0.85%Q; curTopic := "General" |}.

(** What the loop has found after any table: the score is the maximum, and
    the entry is the earliest one that reaches it. *)
Definition bestInvariant (q : string) (table : list (string * KnowledgeEntry))
           (acc : option KnowledgeEntry * nat) : Prop :=
  (forall kv, In kv table -> scoreKey q (fst kv) <= snd acc) /\
  ((snd acc = 0 /\ fst acc = None) \/
   (exists pre kv post,
       table = pre ++ kv :: post /\ fst acc = Some (snd kv) /\
       scoreKey q (fst kv) = snd acc /\ 1 <= snd acc /\
       (forall kv', In kv' pre -> scoreKey q (fst kv') < snd acc))).


Fixpoint allWhite (w : string) : bool :=
  match w with
  | EmptyString => true
  | String c w' => isWhiteSpace c && allWhite w'
  end.












Definition sampleDraws : Draws := {| thinkingDraw := 0.5; pickDraw := 0.5 |}.

(** ** Vocabulary for the further properties *)

(** The topic labels of the two tables and of the overrides. *)
Definition topicLabels : list string :=
  [ "Data Structures"; "Algorithms"; "Thermodynamics"; "Signal Processing";
    "Programming"; "General"; "Databases" ].


(** The extended keywords that no query can reach. *)
Definition shadowedKeywords : list string :=
  [ "pointer"; "oop"; "complexity"; "binary search" ].

(** [Array.prototype.join] on strings. *)
Fixpoint join (sep : string) (l : list string) : string :=
  match l with
  | [] => EmptyString
  | [x] => x
  | x :: l' => (x ++ sep ++ join sep l')%string
  end.

(** Number of occurrences of a character. *)
Fixpoint countChar (c : ascii) (s : string) : nat :=
  match s with
  | EmptyString => 0
  | String x s' => (if Ascii.eqb x c then 1 else 0) + countChar c s'
  end.

(** ** The Ask page around the generator

    The state the handlers of [AskPage] read and write, and the handlers
    themselves.  Timestamps are left out; a submission is taken as a whole,
    with no other event between its two halves. *)

(** A selected file, as far as the page looks at it: name and MIME type. *)
Module File.
Record t : Type := mk { name : string; type : string }.
End File.

(** A message of the conversation.  [files], [confidence] and [topic] are
    absent on the messages that do not set them. *)
Module Msg.
Record t : Type := mk
    { type : MessageType;
      content : string;
      files : option (list string);
      confidence : option Q;
      topic : option string }.
End Msg.

Module Page.
Record t : Type := mk
    { query : string;
      messages : list Msg.t;
      uploadedFiles : list File.t;
      loading : bool }.
End Page.

Definition welcomeText : string :=
  "Hey there! 👋 I'm **Study Pilot AI**, your friendly learning buddy!

Think of me as that smart friend who's always ready to help you understand tricky concepts. I'm powered by a local knowledge base, so I work **completely offline** - no internet needed!

**What I can help you with:**
• Explain difficult topics in simple terms
• Answer questions about Data Structures & Algorithms
• Help with Thermodynamics concepts
• Break down Signal Processing principles
• Guide you through programming concepts

Just type your question below and let's make learning fun! 🚀".

Definition clearedText : string :=
  "Chat cleared! 🧹 What would you like to learn about now? I'm ready for new questions!".

Definition uploadedPrefix : string := "📎 Uploaded: ".

Definition plainMessage (ty : MessageType) (body : string) : Msg.t :=
  {| Msg.type := ty; Msg.content := body; Msg.files := None;
     Msg.confidence := None; Msg.topic := None |}.

(** The page once the welcome effect has run. *)
Definition mounted : Page.t :=
  {| Page.query := EmptyString;
     Page.messages := [plainMessage ai welcomeText];
     Page.uploadedFiles := [];
     Page.loading := false |}.

(** [slice(-n)]: the last [n] elements, all of them when there are fewer. *)
Definition sliceLast {A : Type} (n : nat) (l : list A) : list A :=
  skipn (length l - n) l.

Definition isUserOrAi (m : Msg.t) : bool :=
  match Msg.type m with
  | user | ai => true
  | system => false
  end.

(** [conversationHistory] of [handleSubmit]. *)
Definition conversationHistory (currentMessages : list Msg.t) : list HistoryEntry :=
  map (fun m => {| type := Msg.type m; content := Msg.content m |})
      (sliceLast 10 (filter isUserOrAi currentMessages)).

(** The guard of [handleSubmit]: nothing typed but white space and nothing
    attached. *)
Definition nothingToSend (st : Page.t) : bool :=
  isEmpty (trim (Page.query st)) && (length (Page.uploadedFiles st) =? 0).

Definition userMessage (st : Page.t) : Msg.t :=
  {| Msg.type := user;
     Msg.content := Page.query st;
     Msg.files := Some (map File.name (Page.uploadedFiles st));
     Msg.confidence := None;
     Msg.topic := None |}.

(** [handleSubmit] up to the [await]. *)
Definition submitted (st : Page.t) : Page.t :=
  {| Page.query := EmptyString;
     Page.messages := Page.messages st ++ [userMessage st];
     Page.uploadedFiles := [];
     Page.loading := true |}.

Definition aiMessage (data : Resolved) (prefixDraw suffixDraw : Q) : Msg.t :=
  let m := composeMessage data prefixDraw suffixDraw in
  {| Msg.type := ai;
     Msg.content := msgContent m;
     Msg.files := None;
     Msg.confidence := Some (msgConfidence m);
     Msg.topic := Some (msgTopic m) |}.

(** [handleSubmit] after the [await]: the answer is appended to the messages
    of that moment, and [loading] is reset. *)
Definition answered (data : Resolved) (prefixDraw suffixDraw : Q) (st : Page.t) : Page.t :=
  {| Page.query := Page.query st;
     Page.messages := Page.messages st ++ [aiMessage data prefixDraw suffixDraw];
     Page.uploadedFiles := Page.uploadedFiles st;
     Page.loading := false |}.

(** The draws of one submission: those of the generator, then the prefix and
    the suffix. *)
Record SubmitDraws : Type := mkSubmitDraws
  { engineDraws : Draws; prefixDraw : Q; suffixDraw : Q }.

Definition handleSubmit (sd : SubmitDraws) (st : Page.t) : Page.t :=
  if nothingToSend st then st
  else
    let savedQuery := Page.query st in
    let st1 := submitted st in
    let data := snd (generateAIResponse savedQuery
                       (conversationHistory (Page.messages st1)) (engineDraws sd)) in
    answered data (prefixDraw sd) (suffixDraw sd) st1.

Definition acceptedType (f : File.t) : bool :=
  String.eqb (File.type f) "application/pdf"
  || String.eqb (File.type f)
       "application/vnd.openxmlformats-officedocument.presentationml.presentation"
  || String.eqb (File.type f) "text/plain".

Definition handleFileUpload (selected : list File.t) (st : Page.t) : Page.t :=
  let validFiles := filter acceptedType selected in
  if 0 <? length validFiles then
    {| Page.query := Page.query st;
       Page.messages :=
         Page.messages st
         ++ [plainMessage system
               (uploadedPrefix ++ join ", " (map File.name validFiles))];
       Page.uploadedFiles := Page.uploadedFiles st ++ validFiles;
       Page.loading := Page.loading st |}
  else st.

(** [filter((_, i) => ...)]: a filter that also sees the index. *)
Fixpoint filterIndexed {A : Type} (keep : A -> nat -> bool) (i : nat) (l : list A)
  : list A :=
  match l with
  | [] => []
  | x :: l' =>
      if keep x i then x :: filterIndexed keep (S i) l'
      else filterIndexed keep (S i) l'
  end.

Definition removeFile (index : nat) (st : Page.t) : Page.t :=
  {| Page.query := Page.query st;
     Page.messages := Page.messages st;
     Page.uploadedFiles :=
       filterIndexed (fun _ i => negb (i =? index)) 0 (Page.uploadedFiles st);
     Page.loading := Page.loading st |}.

(** [clearChat]; [confirmed] is the answer to the confirmation dialog. *)
Definition clearChat (confirmed : bool) (st : Page.t) : Page.t :=
  if confirmed then
    {| Page.query := Page.query st;
       Page.messages := [plainMessage ai clearedText];
       Page.uploadedFiles := Page.uploadedFiles st;
       Page.loading := Page.loading st |}
  else st.

(** [setQuery], from the input box or from a suggestion chip. *)
Definition handleQuickQuery (text : string) (st : Page.t) : Page.t :=
  {| Page.query := text;
     Page.messages := Page.messages st;
     Page.uploadedFiles := Page.uploadedFiles st;
     Page.loading := Page.loading st |}.

(** The class of the confidence badge. *)
Definition confidenceBadge (c : Q) : string :=
  if negb (Qle_bool c 0.7) then "high"
  else if negb (Qle_bool c 0.4) then "medium"
  else "low".


(** What the user can do on the page. *)
Inductive Event : Type :=
| Typed (text : string)
| Submitted (sd : SubmitDraws)
| FilesChosen (selected : list File.t)
| FileRemoved (index : nat)
| ClearRequested (confirmed : bool).

Definition handle (st : Page.t) (e : Event) : Page.t :=
  match e with
  | Typed text => handleQuickQuery text st
  | Submitted sd => handleSubmit sd st
  | FilesChosen selected => handleFileUpload selected st
  | FileRemoved index => removeFile index st
  | ClearRequested confirmed => clearChat confirmed st
  end.

Definition session (events : list Event) : Page.t :=
  fold_left handle events mounted.

(** What holds of the page after any sequence of events. *)
Definition pageInvariant (st : Page.t) : Prop :=
  Page.messages st <> [] /\
  Page.loading st = false /\
  (forall f, In f (Page.uploadedFiles st) -> acceptedType f = true) /\
  (forall m c, In m (Page.messages st) -> Msg.confidence m = Some c ->
     Msg.type m = ai /\ (0.65 <= c)%Q /\ (c <= 0.98)%Q).

(** * Properties of the embedding *)

(** ** Substrings *)

Lemma startsWith_true (s p : string) :
  startsWith s p = true <-> exists r, s = (p ++ r)%string.
Proof.
  revert s; induction p as [|a p IH]; intros s; simpl.
  - split; [intros _; now exists s | reflexivity].
  - destruct s as [|b s]; simpl.
    + split; [discriminate | intros [r H]; discriminate].
    + rewrite andb_true_iff, IH. split.
      * intros [E [r ->]]. apply Ascii.eqb_eq in E. subst. now exists r.
      * intros [r H]. injection H as -> ->. split; [apply Ascii.eqb_refl | now exists r].
Qed.

Lemma includes_true (s sub : string) :
  includes s sub = true <-> contains s sub.
Proof.
  unfold contains. induction s as [|c s IH]; simpl.
  - rewrite orb_false_r, startsWith_true. split.
    + intros [r H]. exists EmptyString, r. exact H.
    + intros [a [b H]]. destruct a; simpl in H; [now exists b | discriminate].
  - rewrite orb_true_iff, startsWith_true, IH. split.
    + intros [[r H] | [a [b H]]].
      * exists EmptyString, r. exact H.
      * exists (String c a), b. simpl. now rewrite H.
    + intros [a [b H]]. destruct a as [|c' a]; simpl in H.
      * left. now exists b.
      * right. injection H as _ H. now exists a, b.
Qed.

Lemma includes_false (s sub : string) :
  includes s sub = false <-> ~ contains s sub.
Proof.
  rewrite <- includes_true. destruct (includes s sub); split; intros H;
    try reflexivity; try discriminate.
  now contradiction H.
Qed.

(** ** Scoring and the loop over the primary table *)

Lemma count_words (q : string) (ws : list string) (n : nat) :
  fold_left (fun score word => if includes q word then score + 1 else score) ws n
  = n + length (filter (fun w => includes q w) ws).
Proof.
  revert n; induction ws as [|w ws IH]; intros n; simpl.
  - lia.
  - rewrite IH. destruct (includes q w); simpl; lia.
Qed.

Lemma scoreKey_phrase (q key : string) :
  contains q key -> scoreKey q key = length (split " " key) * 3.
Proof.
  intros H. apply includes_true in H. unfold scoreKey. now rewrite H.
Qed.

Lemma scoreKey_words (q key : string) :
  ~ contains q key ->
  scoreKey q key = length (filter (fun w => includes q w) (split " " key)).
Proof.
  intros H. apply includes_false in H. unfold scoreKey. rewrite H.
  now rewrite count_words.
Qed.

Lemma bestOf_invariant (q : string) (table : list (string * KnowledgeEntry)) :
  bestInvariant q table (bestOf q table).
Proof.
  unfold bestOf. induction table as [|x table IH] using rev_ind.
  - split; [intros kv [] | left; split; reflexivity].
  - rewrite fold_left_app; simpl.
    set (acc := fold_left (bestStep q) table (None, 0)) in *.
    destruct IH as [Hmax Hsel]. unfold bestStep.
    destruct (Nat.ltb_spec (snd acc) (scoreKey q (fst x))) as [Hlt | Hge].
    + split; simpl.
      * intros kv Hin. apply in_app_or in Hin. destruct Hin as [Hin | [<- | []]].
        -- specialize (Hmax kv Hin). lia.
        -- lia.
      * right. exists table, x, []. repeat split; try lia.
        intros kv' Hin. specialize (Hmax kv' Hin). lia.
    + split.
      * intros kv Hin. apply in_app_or in Hin. destruct Hin as [Hin | [<- | []]].
        -- now apply Hmax.
        -- exact Hge.
      * destruct Hsel as [H0 | (pre & kv & post & -> & Hm & Hs & H1 & Hpre)].
        -- now left.
        -- right. exists pre, kv, (post ++ [x]). repeat split; try assumption.
           now rewrite <- app_assoc.
Qed.

(** No entry scores: the loop ends with score 0, and conversely. *)
Lemma bestOf_zero (q : string) (table : list (string * KnowledgeEntry)) :
  snd (bestOf q table) = 0 <->
  forall kv, In kv table -> scoreKey q (fst kv) = 0.
Proof.
  destruct (bestOf_invariant q table) as [Hmax Hsel]. split.
  - intros H0 kv Hin. specialize (Hmax kv Hin). lia.
  - intros Hall. destruct Hsel as [[H0 _] | (pre & kv & post & E & _ & Hs & H1 & _)].
    + exact H0.
    + rewrite <- Hs, Hall in H1; [lia|]. rewrite E. apply in_elt.
Qed.

(** Some entry scores: the loop ends with a score of at least 1. *)
Lemma bestOf_positive (q : string) (table : list (string * KnowledgeEntry)) :
  (exists kv, In kv table /\ 1 <= scoreKey q (fst kv)) ->
  1 <= snd (bestOf q table).
Proof.
  intros (kv & Hin & H1).
  destruct (bestOf_invariant q table) as [Hmax _]. specialize (Hmax kv Hin). lia.
Qed.

(** ** The matcher against the words a pattern stands for *)


Lemma string_app_assoc (a b c : string) : ((a ++ b) ++ c = a ++ (b ++ c))%string.
Proof. induction a; simpl; congruence. Qed.




(** ** The greeting pattern *)












(** ** Lower-casing the input and the [i] flag *)



Lemma toLowerChar_white (c : ascii) : isWhiteSpace (toLowerChar c) = isWhiteSpace c.
Proof. destruct c as [[] [] [] [] [] [] [] []]; reflexivity. Qed.


Lemma isEmpty_toLowerCase (s : string) : isEmpty (toLowerCase s) = isEmpty s.
Proof. now destruct s. Qed.

Lemma trimStart_toLowerCase (s : string) :
  trimStart (toLowerCase s) = toLowerCase (trimStart s).
Proof.
  induction s as [|c s IH]; simpl; [reflexivity|].
  rewrite toLowerChar_white. now destruct (isWhiteSpace c).
Qed.

Lemma trimEnd_toLowerCase (s : string) :
  trimEnd (toLowerCase s) = toLowerCase (trimEnd s).
Proof.
  induction s as [|c s IH]; simpl; [reflexivity|].
  rewrite toLowerChar_white, IH, isEmpty_toLowerCase.
  now destruct (isWhiteSpace c && isEmpty (trimEnd s)).
Qed.

(** Lower-casing and trimming commute. *)
Lemma normalize_trim (s : string) : normalize s = toLowerCase (trim s).
Proof.
  unfold normalize, trim. now rewrite trimStart_toLowerCase, trimEnd_toLowerCase.
Qed.









(** ** Stages of the callback *)

Lemma knowledgeBase_answers (kv : string * KnowledgeEntry) :
  In kv knowledgeBase -> isEmpty (answer (snd kv)) = false.
Proof.
  assert (H : forallb (fun kv => negb (isEmpty (answer (snd kv)))) knowledgeBase = true)
    by (vm_compute; reflexivity).
  rewrite forallb_forall in H. intros Hin. apply H in Hin.
  now apply negb_true_iff in Hin.
Qed.

Lemma extendedTopics_texts (kv : string * ExtendedTopic) :
  In kv extendedTopics -> isEmpty (text (snd kv)) = false.
Proof.
  assert (H : forallb (fun kv => negb (isEmpty (text (snd kv)))) extendedTopics = true)
    by (vm_compute; reflexivity).
  rewrite forallb_forall in H. intros Hin. apply H in Hin.
  now apply negb_true_iff in Hin.
Qed.

Lemma split_nonempty (sep : ascii) (s : string) : 1 <= length (split sep s).
Proof.
  induction s as [|c s IH]; simpl; [lia|].
  destruct (Ascii.eqb c sep); simpl; [lia|].
  destruct (split sep s); simpl in *; lia.
Qed.

(** The two outcomes of the primary stage. *)
Lemma primaryStage_cases (q : string) (st : Locals) :
  (snd (bestOf q knowledgeBase) = 0 /\ primaryStage q st = st) \/
  (exists pre kv post,
      knowledgeBase = pre ++ kv :: post /\
      1 <= snd (bestOf q knowledgeBase) /\
      scoreKey q (fst kv) = snd (bestOf q knowledgeBase) /\
      (forall kv', In kv' pre -> scoreKey q (fst kv') < scoreKey q (fst kv)) /\
      primaryStage q st = reported (snd kv)).
Proof.
  pose proof (bestOf_invariant q knowledgeBase) as [_ H]. unfold primaryStage.
  destruct (bestOf q knowledgeBase) as [bm bs]; simpl in *.
  destruct H as [[-> ->] | (pre & kv & post & E & -> & Hs & H1 & Hpre)].
  - left. now split.
  - right. exists pre, kv, post. repeat split; try assumption.
    + intros kv' Hin. rewrite Hs. now apply Hpre.
    + destruct bs; [lia | reflexivity].
Qed.

(** The two outcomes of the loop over the extended table. *)
Lemma extendedLoop_cases (q : string) (table : list (string * ExtendedTopic))
      (st : Locals) :
  ((forall kv, In kv table -> includes q (fst kv) = false) /\
   extendedLoop q table st = st) \/
  (exists pre kv post,
      table = pre ++ kv :: post /\
      includes q (fst kv) = true /\
      (forall kv', In kv' pre -> includes q (fst kv') = false) /\
      extendedLoop q table st = reportedExt (snd kv)).
Proof.
  induction table as [|[kw data] table IH]; simpl.
  - left. split; [intros kv [] | reflexivity].
  - destruct (includes q kw) eqn:Hkw.
    + right. exists [], (kw, data), table. repeat split; try assumption.
      intros kv' [].
    + destruct IH as [[Hnone ->] | (pre & kv & post & -> & Hin & Hpre & ->)].
      * left. split; [|reflexivity]. intros kv [<- | Hin]; auto.
      * right. exists ((kw, data) :: pre), kv, post. repeat split; try assumption.
        intros kv' [<- | Hin']; auto.
Qed.

Lemma matched_overrides (q : string) :
  matched q =
  if test false identityRe q then overrideWith identityResponse
  else if test false thanksRe q then overrideWith thanksResponse
  else if test false greetingRe q then overrideWith greetingResponse
  else extendedStage q (primaryStage q initial).
Proof.
  unfold matched, identityStage, thanksStage, greetingStage.
  destruct (test false identityRe q), (test false thanksRe q),
    (test false greetingRe q); reflexivity.
Qed.

(** The state before the fallback check is falsy only if it is still the
    initial one. *)
Lemma falsy_matched (q : string) :
  falsy (response (matched q)) = true -> matched q = initial.
Proof.
  rewrite matched_overrides.
  destruct (test false identityRe q); [discriminate|].
  destruct (test false thanksRe q); [discriminate|].
  destruct (test false greetingRe q); [discriminate|].
  unfold extendedStage.
  destruct (primaryStage_cases q initial) as [[_ ->] | (pre & kv & post & E & _ & _ & _ & ->)].
  - change (falsy (response initial)) with true. cbv iota.
    destruct (extendedLoop_cases q extendedTopics initial)
      as [[_ ->] | (pre & kv & post & E & _ & _ & ->)].
    + reflexivity.
    + cbn [falsy response reportedExt].
      rewrite extendedTopics_texts; [discriminate|].
      rewrite E. apply in_elt.
  - cbn [falsy response reported].
    rewrite knowledgeBase_answers by (rewrite E; apply in_elt). cbv iota.
    cbn [falsy response reported].
    rewrite knowledgeBase_answers by (rewrite E; apply in_elt). discriminate.
Qed.

Lemma pickSuggestion_in (r : Q) :
  (0 <= r)%Q -> (r < 1)%Q -> In (pickSuggestion r) suggestions.
Proof.
  intros H0 H1. unfold pickSuggestion.
  set (n := inject_Z (Z.of_nat (length suggestions))).
  assert (Hlo : (0 <= Qfloor (r * n))%Z).
  { change 0%Z with (Qfloor 0). apply Qfloor_resp_le.
    apply Qmult_le_0_compat; [assumption | discriminate]. }
  assert (Hhi : (Qfloor (r * n) < 6)%Z).
  { rewrite Zlt_Qlt. apply Qle_lt_trans with (r * n)%Q; [apply Qfloor_le|].
    setoid_replace (inject_Z 6) with (1 * n)%Q by reflexivity.
    apply Qmult_lt_compat_r; [reflexivity | assumption]. }
  destruct (Z.ltb_spec (Qfloor (r * n)) 0); [lia|].
  apply nth_In. change (length suggestions) with 6. lia.
Qed.

Lemma truthy_some (r : option string) :
  falsy r = false -> exists a, r = Some a /\ a <> EmptyString.
Proof.
  destruct r as [[|c a]|]; simpl; try discriminate.
  intros _. eexists. split; [reflexivity | discriminate].
Qed.

Lemma callback_override (q body : string) (pd : Q) :
  matched q = overrideWith body -> isEmpty body = false ->
  callback q pd = {| resAnswer := Some body; resConfidence := 0.98%Q;
                     resTopic := "General"; isLocal := true |}.
Proof.
  intros E Hb. unfold callback, fallbackStage. rewrite E.
  cbn [falsy response overrideWith]. rewrite Hb. reflexivity.
Qed.

Lemma callback_fallback (q : string) (pd : Q) :
  falsy (response (matched q)) = true ->
  callback q pd = {| resAnswer := Some (fallbackResponse (pickSuggestion pd));
                     resConfidence := 0.65%Q;
                     resTopic := "General"; isLocal := true |}.
Proof.
  intros F. unfold callback, fallbackStage. rewrite F.
  rewrite (falsy_matched q F). reflexivity.
Qed.

Lemma bestStep_keeps (q : string) (post : list (string * KnowledgeEntry))
      (acc : option KnowledgeEntry * nat) :
  (forall kv, In kv post -> scoreKey q (fst kv) <= snd acc) ->
  fold_left (bestStep q) post acc = acc.
Proof.
  revert acc; induction post as [|x post IH]; intros acc H; simpl; [reflexivity|].
  unfold bestStep at 2.
  destruct (Nat.ltb_spec (snd acc) (scoreKey q (fst x))) as [Hlt | _].
  - specialize (H x (or_introl eq_refl)). lia.
  - apply IH. intros kv Hin. apply H. now right.
Qed.

(** An entry that beats everything before it and is not beaten by anything
    after it is the one the loop ends with. *)
Lemma bestOf_winner (q : string) (pre post : list (string * KnowledgeEntry))
      (kv : string * KnowledgeEntry) :
  1 <= scoreKey q (fst kv) ->
  (forall kv', In kv' pre -> scoreKey q (fst kv') < scoreKey q (fst kv)) ->
  (forall kv', In kv' post -> scoreKey q (fst kv') <= scoreKey q (fst kv)) ->
  bestOf q (pre ++ kv :: post) = (Some (snd kv), scoreKey q (fst kv)).
Proof.
  intros H1 Hpre Hpost. unfold bestOf. rewrite fold_left_app. simpl.
  pose proof (bestOf_invariant q pre) as [_ Hsel]. unfold bestOf in Hsel.
  set (acc := fold_left (bestStep q) pre (None, 0)) in *.
  assert (Hlt : snd acc < scoreKey q (fst kv)).
  { destruct Hsel as [[-> _] | (p & kv0 & s & E & _ & <- & _)]; [lia|].
    apply Hpre. rewrite E. apply in_elt. }
  unfold bestStep at 2. apply Nat.ltb_lt in Hlt. rewrite Hlt.
  now apply bestStep_keeps.
Qed.

Lemma no_match_falsy (q : string) :
  snd (bestOf q knowledgeBase) = 0 ->
  (forall kv, In kv extendedTopics -> includes q (fst kv) = false) ->
  test false greetingRe q = false ->
  test false thanksRe q = false ->
  test false identityRe q = false ->
  matched q = initial.
Proof.
  intros H0 Hext Hg Ht Hi. rewrite matched_overrides, Hi, Ht, Hg.
  unfold extendedStage.
  destruct (primaryStage_cases q initial) as [[_ ->] | (pre & kv & post & _ & H1 & _)];
    [|lia].
  change (falsy (response initial)) with true. cbv iota.
  destruct (extendedLoop_cases q extendedTopics initial)
    as [[_ ->] | (pre & kv & post & E & Hin & _)]; [reflexivity|].
  rewrite Hext in Hin; [discriminate|]. rewrite E. apply in_elt.
Qed.


(** * The statements of the design document *)

(** C1. After normalisation the primary matcher scores a key at three times
    its number of words when the query contains the key, and otherwise at the
    number of its words that the query contains; it keeps the first entry
    among those with the highest score, and reports that entry's answer,
    confidence and topic exactly when the highest score is at least 1. *)
Theorem primary_matcher_best_first (query : string) :
  let q := normalize query in
  (forall s sub, includes s sub = true <-> contains s sub) /\
  (forall key, contains q key -> scoreKey q key = length (split " " key) * 3) /\
  (forall key, ~ contains q key ->
     scoreKey q key = length (filter (fun w => includes q w) (split " " key))) /\
  (forall kv, In kv knowledgeBase ->
     scoreKey q (fst kv) <= snd (bestOf q knowledgeBase)) /\
  (snd (bestOf q knowledgeBase) = 0 -> forall st, primaryStage q st = st) /\
  (1 <= snd (bestOf q knowledgeBase) ->
   exists pre key entry post,
     knowledgeBase = pre ++ (key, entry) :: post /\
     scoreKey q key = snd (bestOf q knowledgeBase) /\
     (forall kv, In kv pre -> scoreKey q (fst kv) < scoreKey q key) /\
     forall st, primaryStage q st = reported entry).
Proof.
  intros q. split; [exact includes_true|].
  split; [exact (scoreKey_phrase q)|]. split; [exact (scoreKey_words q)|].
  split; [apply (bestOf_invariant q knowledgeBase)|]. split.
  - intros H0 st.
    destruct (primaryStage_cases q st) as [[_ E] | (pre & kv & post & _ & H1 & _)];
      [exact E | lia].
  - intros H1.
    destruct (primaryStage_cases q initial)
      as [[H0 _] | (pre & [key entry] & post & E & _ & Hs & Hpre & _)]; [lia|].
    exists pre, key, entry, post. repeat split; try assumption.
    intros st.
    destruct (primaryStage_cases q st)
      as [[H0 _] | (pre' & kv' & post' & E' & _ & Hs' & Hpre' & ->)]; [lia|].
    f_equal.
    assert (Hpos : pre = pre' /\ (key, entry) = kv').
    { rewrite E in E'. clear E. revert pre' E' Hpre'.
      induction pre as [|x pre IH]; intros [|y pre'] E' Hpre'; simpl in E'.
      - injection E' as E'. now split.
      - injection E' as <- _. specialize (Hpre' _ (or_introl eq_refl)).
        simpl in *. lia.
      - injection E' as -> _. specialize (Hpre _ (or_introl eq_refl)).
        simpl in *. lia.
      - injection E' as -> E'.
        destruct (IH (fun kv H => Hpre kv (or_intror H)) pre' E'
                     (fun kv H => Hpre' kv (or_intror H))) as [-> Hk].
        now split. }
    destruct Hpos as [_ <-]. reflexivity.
Qed.

Lemma primary_matcher_best_first_witness :
  scoreKey (normalize "Quick Sort algorithm is quick") "quick sort" = 6 /\
  scoreKey (normalize "sort then quick it") "quick sort" = 2.
Proof.
  split.
  - apply (primary_matcher_best_first "Quick Sort algorithm is quick").
    apply includes_true. vm_compute. reflexivity.
  - destruct (primary_matcher_best_first "sort then quick it") as (_ & _ & H & _).
    rewrite H; [vm_compute; reflexivity|].
    apply includes_false. vm_compute. reflexivity.
Defined.

(** C2. The overrides run after the two matchers in the order greeting,
    thanks, identity.  Each one that fires replaces whatever state it is given
    by a response of confidence 0.98 and topic General, so the last one that
    fires decides the result.  The query "thanks so much!" resolves with topic
    General and confidence 0.98, although the primary matcher has found an
    entry of topic Algorithms for it. *)
Theorem overrides_in_order_last_wins (query : string)
        (history : list HistoryEntry) (d : Draws) :
  let q := normalize query in
  let r := snd (generateAIResponse query history d) in
  let general body :=
    {| resAnswer := Some body; resConfidence := 0.98%Q;
       resTopic := "General"; isLocal := true |} in
  matched q
  = identityStage q (thanksStage q (greetingStage q
      (extendedStage q (primaryStage q initial)))) /\
  (forall st, test false greetingRe q = true ->
     greetingStage q st = overrideWith greetingResponse) /\
  (forall st, test false thanksRe q = true ->
     thanksStage q st = overrideWith thanksResponse) /\
  (forall st, test false identityRe q = true ->
     identityStage q st = overrideWith identityResponse) /\
  (test false identityRe q = true -> r = general identityResponse) /\
  (test false identityRe q = false -> test false thanksRe q = true ->
     r = general thanksResponse) /\
  (test false identityRe q = false -> test false thanksRe q = false ->
   test false greetingRe q = true -> r = general greetingResponse) /\
  curTopic (primaryStage (normalize "thanks so much!") initial) = "Algorithms" /\
  resTopic (snd (generateAIResponse "thanks so much!" history d)) = "General" /\
  resConfidence (snd (generateAIResponse "thanks so much!" history d)) = 0.98%Q.
Proof.
  intros q r general. split; [reflexivity|].
  split; [intros st H; unfold greetingStage; now rewrite H|].
  split; [intros st H; unfold thanksStage; now rewrite H|].
  split; [intros st H; unfold identityStage; now rewrite H|].
  assert (Hr : r = callback q (pickDraw d)) by reflexivity.
  split; [|split; [|split; [|split; [vm_compute; reflexivity|]]]].
  - intros Hi. rewrite Hr. apply callback_override; [|reflexivity].
    rewrite matched_overrides. now rewrite Hi.
  - intros Hi Ht. rewrite Hr. apply callback_override; [|reflexivity].
    rewrite matched_overrides. now rewrite Hi, Ht.
  - intros Hi Ht Hg. rewrite Hr. apply callback_override; [|reflexivity].
    rewrite matched_overrides. now rewrite Hi, Ht, Hg.
  - assert (E : snd (generateAIResponse "thanks so much!" history d)
                = general thanksResponse).
    { apply callback_override; [|reflexivity]. vm_compute. reflexivity. }
    rewrite E. split; reflexivity.
Qed.

Lemma overrides_in_order_last_wins_witness :
  snd (generateAIResponse "Hello, who are you? Thanks!" [] sampleDraws)
  = {| resAnswer := Some identityResponse; resConfidence := 0.98%Q;
       resTopic := "General"; isLocal := true |}.
Proof.
  apply (overrides_in_order_last_wins "Hello, who are you? Thanks!" [] sampleDraws).
  vm_compute. reflexivity.
Defined.

(** C3. The extended table is read only when no primary entry scores at
    least 1, and then the result is the first entry, in the order of the
    table, whose keyword occurs in the normalised query. *)
Theorem extended_matcher_first_hit (query : string) :
  let q := normalize query in
  let st1 := primaryStage q initial in
  ((exists kv, In kv knowledgeBase /\ 1 <= scoreKey q (fst kv)) ->
   extendedStage q st1 = st1) /\
  ((forall kv, In kv knowledgeBase -> scoreKey q (fst kv) = 0) ->
   ((forall kv, In kv extendedTopics -> ~ contains q (fst kv)) /\
    extendedStage q st1 = initial) \/
   (exists pre kw data post,
       extendedTopics = pre ++ (kw, data) :: post /\
       contains q kw /\
       (forall kv, In kv pre -> ~ contains q (fst kv)) /\
       extendedStage q st1 = reportedExt data)).
Proof.
  intros q st1. unfold st1, extendedStage. split.
  - intros H1. apply bestOf_positive in H1.
    destruct (primaryStage_cases q initial)
      as [[H0 _] | (pre & kv & post & E & _ & _ & _ & ->)]; [lia|].
    cbn [falsy response reported].
    now rewrite knowledgeBase_answers by (rewrite E; apply in_elt).
  - intros H0. apply bestOf_zero in H0.
    destruct (primaryStage_cases q initial)
      as [[_ ->] | (pre & kv & post & _ & H1 & _)]; [|lia].
    change (falsy (response initial)) with true. cbv iota.
    destruct (extendedLoop_cases q extendedTopics initial)
      as [[Hnone ->] | (pre & [kw data] & post & E & Hin & Hpre & ->)].
    + left. split; [|reflexivity]. intros kv Hkv. apply includes_false. auto.
    + right. exists pre, kw, data, post. repeat split; try assumption.
      * now apply includes_true.
      * intros kv Hkv. apply includes_false. auto.
Qed.

Lemma extended_matcher_first_hit_witness :
  (extendedStage (normalize "Hash Table") (primaryStage (normalize "Hash Table") initial)
   = primaryStage (normalize "Hash Table") initial) /\
  (((forall kv, In kv extendedTopics -> ~ contains (normalize "SQL") (fst kv)) /\
    extendedStage (normalize "SQL") (primaryStage (normalize "SQL") initial) = initial) \/
   (exists pre kw data post,
       extendedTopics = pre ++ (kw, data) :: post /\
       contains (normalize "SQL") kw /\
       (forall kv, In kv pre -> ~ contains (normalize "SQL") (fst kv)) /\
       extendedStage (normalize "SQL") (primaryStage (normalize "SQL") initial)
       = reportedExt data)).
Proof.
  split.
  - apply (extended_matcher_first_hit "Hash Table").
    exists (nth 4 knowledgeBase (EmptyString, mkKnowledgeEntry EmptyString 0 EmptyString)).
    split; [vm_compute; tauto | vm_compute; lia].
  - apply (extended_matcher_first_hit "SQL").
    intros kv Hin. apply Nat.eqb_eq. revert kv Hin. apply forallb_forall.
    vm_compute. reflexivity.
Defined.

(** C4, as the design document states it, fails: the query below contains
    the key "what is", no override fires, and the result carries the topic of
    the "hash table" entry, which scores the same and stands earlier. *)
Lemma phrase_match_not_always_reported :
  exists entry,
    In ("what is", entry) knowledgeBase /\
    contains (normalize "what is a hash table") "what is" /\
    test false greetingRe (normalize "what is a hash table") = false /\
    test false thanksRe (normalize "what is a hash table") = false /\
    test false identityRe (normalize "what is a hash table") = false /\
    resTopic (snd (generateAIResponse "what is a hash table" [] sampleDraws))
    <> topic entry.
Proof.
  exists (snd (nth 19 knowledgeBase (EmptyString, mkKnowledgeEntry EmptyString 0 EmptyString))).
  split; [vm_compute; tauto|].
  split; [apply includes_true; vm_compute; reflexivity|].
  repeat (split; [vm_compute; reflexivity|]).
  vm_compute. discriminate.
Qed.

(** C4, amended.  When the normalised query contains a primary key, every
    earlier entry scores less than three times the key's number of words, no
    later entry scores more, and no override fires, the result carries that
    entry's answer, topic and confidence. *)
Theorem phrase_match_reported_when_best (query : string)
        (history : list HistoryEntry) (d : Draws)
        (pre post : list (string * KnowledgeEntry))
        (key : string) (entry : KnowledgeEntry) :
  let q := normalize query in
  let r := snd (generateAIResponse query history d) in
  knowledgeBase = pre ++ (key, entry) :: post ->
  contains q key ->
  (forall kv, In kv pre -> scoreKey q (fst kv) < length (split " " key) * 3) ->
  (forall kv, In kv post -> scoreKey q (fst kv) <= length (split " " key) * 3) ->
  test false greetingRe q = false ->
  test false thanksRe q = false ->
  test false identityRe q = false ->
  resTopic r = topic entry /\ resConfidence r = confidence entry /\
  resAnswer r = Some (answer entry).
Proof.
  intros q r E Hkey Hpre Hpost Hg Ht Hi.
  pose proof (scoreKey_phrase q key Hkey) as Hs.
  pose proof (split_nonempty " " key) as Hw.
  assert (Hbest : bestOf q knowledgeBase = (Some entry, scoreKey q key)).
  { rewrite E. apply (bestOf_winner q pre post (key, entry)); simpl.
    - lia.
    - intros kv Hin. rewrite Hs. now apply Hpre.
    - intros kv Hin. rewrite Hs. now apply Hpost. }
  assert (Hne : isEmpty (answer entry) = false).
  { apply (knowledgeBase_answers (key, entry)). rewrite E. apply in_elt. }
  assert (Hm : matched q = reported entry).
  { rewrite matched_overrides, Hi, Ht, Hg. unfold extendedStage, primaryStage.
    rewrite Hbest, Hs. destruct (length (split " " key)) as [|n]; [lia|].
    cbn [Nat.leb Nat.mul Nat.add]. cbn [falsy response]. now rewrite Hne. }
  assert (Hr : r = callback q (pickDraw d)) by reflexivity.
  rewrite Hr. unfold callback, fallbackStage. rewrite Hm.
  cbn [falsy response reported]. rewrite Hne. repeat split.
Qed.

Lemma phrase_match_reported_when_best_witness :
  resTopic (snd (generateAIResponse "What is a Hash Table?" [] sampleDraws))
  = "Data Structures" /\
  resConfidence (snd (generateAIResponse "What is a Hash Table?" [] sampleDraws))
  = 0.94%Q.
Proof.
  pose (dflt := (EmptyString, mkKnowledgeEntry EmptyString 0 EmptyString)).
  destruct (phrase_match_reported_when_best "What is a Hash Table?" [] sampleDraws
              (firstn 4 knowledgeBase) (skipn 5 knowledgeBase)
              "hash table" (snd (nth 4 knowledgeBase dflt))) as (H1 & H2 & _).
  - vm_compute. reflexivity.
  - apply includes_true. vm_compute. reflexivity.
  - intros kv Hin. apply Nat.ltb_lt. revert kv Hin. apply forallb_forall.
    vm_compute. reflexivity.
  - intros kv Hin. apply Nat.leb_le. revert kv Hin. apply forallb_forall.
    vm_compute. reflexivity.
  - vm_compute. reflexivity.
  - vm_compute. reflexivity.
  - vm_compute. reflexivity.
  - split; [exact H1 | exact H2].
Defined.

(** C5. The engine resolves every query, the empty one included, with an
    answer.  When no primary entry scores at least 1, no extended keyword
    occurs in the normalised query and no override pattern matches, the
    confidence is 0.65 and the text is the fallback template around one of
    the fixed suggestions; the empty query is such a query. *)
Theorem engine_total_with_fallback (query : string)
        (history : list HistoryEntry) (d : Draws) :
  let q := normalize query in
  let r := snd (generateAIResponse query history d) in
  (exists a, resAnswer r = Some a /\ a <> EmptyString) /\
  isLocal r = true /\
  ((forall kv, In kv knowledgeBase -> scoreKey q (fst kv) = 0) ->
   (forall kv, In kv extendedTopics -> ~ contains q (fst kv)) ->
   test false greetingRe q = false ->
   test false thanksRe q = false ->
   test false identityRe q = false ->
   resConfidence r = 0.65%Q /\
   resAnswer r = Some (fallbackResponse (pickSuggestion (pickDraw d))) /\
   ((0 <= pickDraw d)%Q -> (pickDraw d < 1)%Q ->
    In (pickSuggestion (pickDraw d)) suggestions)) /\
  ((forall kv, In kv knowledgeBase -> scoreKey (normalize EmptyString) (fst kv) = 0) /\
   (forall kv, In kv extendedTopics -> ~ contains (normalize EmptyString) (fst kv)) /\
   test false greetingRe (normalize EmptyString) = false /\
   test false thanksRe (normalize EmptyString) = false /\
   test false identityRe (normalize EmptyString) = false).
Proof.
  intros q r. assert (Hr : r = callback q (pickDraw d)) by reflexivity.
  split; [|split; [reflexivity|split]].
  - rewrite Hr. destruct (falsy (response (matched q))) eqn:F.
    + rewrite (callback_fallback q _ F). eexists. split; [reflexivity|].
      unfold fallbackResponse. discriminate.
    + unfold callback, fallbackStage. rewrite F. cbn [resAnswer].
      now apply truthy_some.
  - intros H0 Hext Hg Ht Hi. apply bestOf_zero in H0.
    assert (F : falsy (response (matched q)) = true).
    { rewrite (no_match_falsy q H0); try assumption; [reflexivity|].
      intros kv Hin. apply includes_false. now apply Hext. }
    rewrite Hr, (callback_fallback q _ F). repeat split.
    apply pickSuggestion_in.
  - split; [|split; [|repeat split; vm_compute; reflexivity]].
    + intros kv Hin. apply Nat.eqb_eq. revert kv Hin.
      apply forallb_forall. vm_compute. reflexivity.
    + intros kv Hin. apply includes_false, negb_true_iff. revert kv Hin.
      apply forallb_forall. vm_compute. reflexivity.
Qed.

Lemma engine_total_with_fallback_witness :
  resConfidence (snd (generateAIResponse EmptyString [] sampleDraws)) = 0.65%Q /\
  resAnswer (snd (generateAIResponse EmptyString [] sampleDraws))
  = Some (fallbackResponse "Fourier Transform").
Proof.
  destruct (engine_total_with_fallback EmptyString [] sampleDraws)
    as (_ & _ & H & H0 & Hext & Hg & Ht & Hi).
  destruct (H H0 Hext Hg Ht Hi) as (Hc & Ha & _).
  split; [exact Hc | exact Ha].
Defined.



(** C7. The conversation history has no influence: with the same query and
    the same random draws, any two histories give the same delay and the same
    resolved value, hence the same composed message. *)
Theorem history_is_ignored (query : string) (h1 h2 : list HistoryEntry)
        (d : Draws) (prefixDraw suffixDraw : Q) :
  generateAIResponse query h1 d = generateAIResponse query h2 d /\
  generateAIResponse query h1 d = generateAIResponse query [] d /\
  composeMessage (snd (generateAIResponse query h1 d)) prefixDraw suffixDraw
  = composeMessage (snd (generateAIResponse query h2 d)) prefixDraw suffixDraw.
Proof. repeat split. Qed.

(** C8, as the design document states it, fails: the extended table has the
    key "binary search", which is two words. *)
Lemma extended_key_of_two_words :
  In "binary search" (map fst extendedTopics) /\
  length (split " " "binary search") = 2.
Proof. split; [vm_compute; tauto | reflexivity]. Qed.

(** C8, amended.  Every key of the extended table other than
    "binary search" is a single word; "binary search", the last key, is two
    words. *)
Theorem extended_keys_single_word_but_last :
  (forall kw, In kw (map fst extendedTopics) -> kw <> "binary search" ->
     length (split " " kw) = 1) /\
  last (map fst extendedTopics) EmptyString = "binary search" /\
  length (split " " "binary search") = 2.
Proof.
  split; [|split; vm_compute; reflexivity].
  assert (H : forallb (fun kw => String.eqb kw "binary search"
                                 || (length (split " " kw) =? 1))
                      (map fst extendedTopics) = true) by (vm_compute; reflexivity).
  rewrite forallb_forall in H. intros kw Hin Hne. apply H in Hin.
  apply orb_true_iff in Hin as [Heq | Hone].
  - apply String.eqb_eq in Heq. contradiction.
  - now apply Nat.eqb_eq.
Qed.

Lemma extended_keys_single_word_but_last_witness :
  length (split " " "complexity") = 1.
Proof.
  apply (proj1 extended_keys_single_word_but_last).
  - vm_compute. tauto.
  - discriminate.
Defined.



(** C10. Whenever the fallback produces the response, that is, whenever the
    state is still falsy after both matchers and the three overrides, the
    resolved topic is the string "General"; only the text and the confidence
    are set by the fallback.  The state is falsy there as soon as no primary
    entry scores, no extended keyword occurs and no override fires. *)
Theorem fallback_topic_is_general (query : string)
        (history : list HistoryEntry) (d : Draws) :
  falsy (response (matched (normalize query))) = true ->
  snd (generateAIResponse query history d)
  = {| resAnswer := Some (fallbackResponse (pickSuggestion (pickDraw d)));
       resConfidence := 0.65%Q;
       resTopic := "General";
       isLocal := true |} /\
  resTopic (snd (generateAIResponse query history d)) = "General" /\
  resTopic (snd (generateAIResponse query history d)) <> EmptyString /\
  curTopic (fallbackStage (pickDraw d) (matched (normalize query)))
  = curTopic (matched (normalize query)) /\
  forall q,
    (forall kv, In kv knowledgeBase -> scoreKey q (fst kv) = 0) ->
    (forall kv, In kv extendedTopics -> ~ contains q (fst kv)) ->
    test false greetingRe q = false ->
    test false thanksRe q = false ->
    test false identityRe q = false ->
    falsy (response (matched q)) = true.
Proof.
  intros F.
  assert (E : snd (generateAIResponse query history d)
              = callback (normalize query) (pickDraw d)) by reflexivity.
  rewrite E, (callback_fallback _ _ F). repeat split.
  - discriminate.
  - unfold fallbackStage. now rewrite F.
  - intros q H0 Hext Hg Ht Hi. apply bestOf_zero in H0.
    rewrite (no_match_falsy q H0); try assumption; [reflexivity|].
    intros kv Hin. apply includes_false. now apply Hext.
Qed.

Lemma fallback_topic_is_general_witness :
  resTopic (snd (generateAIResponse "purple elephant quantum" [] sampleDraws))
  = "General".
Proof.
  apply (fallback_topic_is_general "purple elephant quantum" [] sampleDraws).
  vm_compute. reflexivity.
Defined.

(** * Further properties of the generator *)


(** ** Normalisation *)

Lemma toLowerChar_idem (c : ascii) : toLowerChar (toLowerChar c) = toLowerChar c.
Proof. destruct c as [[] [] [] [] [] [] [] []]; reflexivity. Qed.

Lemma toLowerCase_idem (s : string) : toLowerCase (toLowerCase s) = toLowerCase s.
Proof. induction s as [|c s IH]; simpl; [reflexivity|]. now rewrite toLowerChar_idem, IH. Qed.

Lemma trimStart_head (s : string) :
  match trimStart s with
  | EmptyString => True
  | String c _ => isWhiteSpace c = false
  end.
Proof.
  induction s as [|c s IH]; simpl; [exact I|].
  destruct (isWhiteSpace c) eqn:E; [exact IH | exact E].
Qed.

Lemma trimStart_idem (s : string) : trimStart (trimStart s) = trimStart s.
Proof.
  pose proof (trimStart_head s) as H. destruct (trimStart s) as [|c t]; [reflexivity|].
  simpl. now rewrite H.
Qed.

Lemma trimEnd_idem (s : string) : trimEnd (trimEnd s) = trimEnd s.
Proof.
  induction s as [|c s IH]; simpl; [reflexivity|].
  destruct (isWhiteSpace c && isEmpty (trimEnd s)) eqn:E; [reflexivity|].
  simpl. rewrite IH, E. reflexivity.
Qed.

(** Trimming the end keeps the first character of a string that starts with
    a character that is not white space. *)
Lemma trimEnd_trimStart (s : string) : trimStart (trimEnd (trimStart s)) = trimEnd (trimStart s).
Proof.
  pose proof (trimStart_head s) as H. destruct (trimStart s) as [|c t]; [reflexivity|].
  simpl. rewrite H. simpl. now rewrite H.
Qed.

Lemma trim_idem (s : string) : trim (trim s) = trim s.
Proof. unfold trim. now rewrite trimEnd_trimStart, trimEnd_idem. Qed.

Lemma allWhite_trimStart (ws s : string) :
  allWhite ws = true -> trimStart (ws ++ s) = trimStart s.
Proof.
  induction ws as [|c ws IH]; simpl; [reflexivity|].
  intros H. apply andb_true_iff in H as [Hc H]. rewrite Hc. now apply IH.
Qed.

Lemma allWhite_trimEnd_nil (ws : string) : allWhite ws = true -> trimEnd ws = EmptyString.
Proof.
  induction ws as [|c ws IH]; simpl; [reflexivity|].
  intros H. apply andb_true_iff in H as [Hc H]. now rewrite Hc, (IH H).
Qed.

Lemma allWhite_trimEnd (s ws : string) :
  allWhite ws = true -> trimEnd (s ++ ws) = trimEnd s.
Proof.
  intros H. induction s as [|c s IH]; simpl.
  - now apply allWhite_trimEnd_nil.
  - now rewrite IH.
Qed.

Lemma trimStart_app (s t : string) :
  isEmpty (trimStart s) = false -> trimStart (s ++ t) = (trimStart s ++ t)%string.
Proof.
  induction s as [|c s IH]; simpl; [discriminate|].
  destruct (isWhiteSpace c); [exact IH | reflexivity].
Qed.

Lemma allWhite_of_trimStart (s : string) :
  isEmpty (trimStart s) = true -> allWhite s = true.
Proof.
  induction s as [|c s IH]; simpl; [reflexivity|].
  destruct (isWhiteSpace c); [exact IH | discriminate].
Qed.

Lemma allWhite_app (a b : string) :
  allWhite (a ++ b) = allWhite a && allWhite b.
Proof. induction a as [|c a IH]; simpl; [reflexivity|]. now rewrite IH, andb_assoc. Qed.

Lemma append_empty_r (s : string) : (s ++ EmptyString)%string = s.
Proof. induction s as [|c s IH]; simpl; [reflexivity | now rewrite IH]. Qed.

Lemma allWhite_trimStart_nil (ws : string) :
  allWhite ws = true -> trimStart ws = EmptyString.
Proof.
  intros H. rewrite <- (append_empty_r ws). now rewrite allWhite_trimStart.
Qed.

Lemma trim_padding (ws1 ws2 s : string) :
  allWhite ws1 = true -> allWhite ws2 = true ->
  trim (ws1 ++ s ++ ws2) = trim s.
Proof.
  intros H1 H2. unfold trim. rewrite (allWhite_trimStart ws1 _ H1).
  destruct (isEmpty (trimStart s)) eqn:E.
  - assert (Hs : allWhite s = true) by now apply allWhite_of_trimStart.
    assert (Hall : allWhite (s ++ ws2) = true) by (rewrite allWhite_app, Hs, H2; reflexivity).
    now rewrite (allWhite_trimStart_nil _ Hall), (allWhite_trimStart_nil _ Hs).
  - rewrite trimStart_app by assumption. now apply allWhite_trimEnd.
Qed.

(** The four shapes of the state before the fallback check. *)
Lemma matched_shapes (q : string) :
  (snd (bestOf q knowledgeBase) = 0 /\ matched q = initial) \/
  (exists body, In body [greetingResponse; thanksResponse; identityResponse] /\
                matched q = overrideWith body) \/
  (exists kv, In kv knowledgeBase /\ 1 <= scoreKey q (fst kv) /\
              matched q = reported (snd kv)) \/
  (exists kv, In kv extendedTopics /\ includes q (fst kv) = true /\
              snd (bestOf q knowledgeBase) = 0 /\
              matched q = reportedExt (snd kv)).
Proof.
  rewrite matched_overrides.
  destruct (test false identityRe q);
    [right; left; exists identityResponse; simpl; auto|].
  destruct (test false thanksRe q);
    [right; left; exists thanksResponse; simpl; auto|].
  destruct (test false greetingRe q);
    [right; left; exists greetingResponse; simpl; auto|].
  unfold extendedStage.
  destruct (primaryStage_cases q initial)
    as [[H0 ->] | (pre & kv & post & E & H1 & Hs & _ & ->)].
  - change (falsy (response initial)) with true. cbv iota.
    destruct (extendedLoop_cases q extendedTopics initial)
      as [[_ ->] | (pre & kv & post & E & Hin & _ & ->)].
    + left. now split.
    + right; right; right. exists kv. repeat split; try assumption.
      rewrite E. apply in_elt.
  - right; right; left. exists kv.
    assert (Hkv : In kv knowledgeBase) by (rewrite E; apply in_elt).
    cbn [falsy response reported]. rewrite (knowledgeBase_answers kv Hkv).
    repeat split; [assumption | lia].
Qed.

Lemma callback_truthy (q : string) (pd : Q) :
  falsy (response (matched q)) = false ->
  callback q pd = {| resAnswer := response (matched q);
                     resConfidence := curConfidence (matched q);
                     resTopic := curTopic (matched q);
                     isLocal := true |}.
Proof. intros F. unfold callback, fallbackStage. now rewrite F. Qed.

Lemma reported_truthy (kv : string * KnowledgeEntry) :
  In kv knowledgeBase -> falsy (response (reported (snd kv))) = false.
Proof. intros H. cbn [falsy response reported]. now apply knowledgeBase_answers. Qed.

Lemma reportedExt_truthy (kv : string * ExtendedTopic) :
  In kv extendedTopics -> falsy (response (reportedExt (snd kv))) = false.
Proof. intros H. cbn [falsy response reportedExt]. now apply extendedTopics_texts. Qed.

(** The resolved value, by the shape of the state. *)
Lemma callback_shapes (q : string) (pd : Q) :
  (snd (bestOf q knowledgeBase) = 0 /\
   callback q pd = {| resAnswer := Some (fallbackResponse (pickSuggestion pd));
                      resConfidence := 0.65%Q; resTopic := "General";
                      isLocal := true |}) \/
  (exists body, In body [greetingResponse; thanksResponse; identityResponse] /\
     callback q pd = {| resAnswer := Some body; resConfidence := 0.98%Q;
                        resTopic := "General"; isLocal := true |}) \/
  (exists kv, In kv knowledgeBase /\ 1 <= scoreKey q (fst kv) /\
     callback q pd = {| resAnswer := Some (answer (snd kv));
                        resConfidence := confidence (snd kv);
                        resTopic := topic (snd kv); isLocal := true |}) \/
  (exists kv, In kv extendedTopics /\ includes q (fst kv) = true /\
     snd (bestOf q knowledgeBase) = 0 /\
     callback q pd = {| resAnswer := Some (text (snd kv));
                        resConfidence := conf (snd kv);
                        resTopic := top (snd kv); isLocal := true |}).
Proof.
  destruct (matched_shapes q)
    as [[H0 E] | [(body & Hb & E) | [(kv & Hkv & H1 & E) | (kv & Hkv & Hin & H0 & E)]]].
  - left. split; [assumption|]. apply callback_fallback. now rewrite E.
  - right; left. exists body. split; [assumption|].
    apply callback_override; [assumption|].
    destruct Hb as [<- | [<- | [<- | []]]]; reflexivity.
  - right; right; left. exists kv. repeat split; try assumption.
    rewrite callback_truthy; rewrite E; [reflexivity | now apply reported_truthy].
  - right; right; right. exists kv. repeat split; try assumption.
    rewrite callback_truthy; rewrite E; [reflexivity | now apply reportedExt_truthy].
Qed.

Lemma callback_confidence_topic (q : string) (pd : Q) :
  (0.65 <= resConfidence (callback q pd))%Q /\
  (resConfidence (callback q pd) <= 0.98)%Q /\
  In (resTopic (callback q pd)) topicLabels.
Proof.
  assert (Hkb : forall kv, In kv knowledgeBase ->
            Qle_bool 0.65 (confidence (snd kv)) && Qle_bool (confidence (snd kv)) 0.98
            && existsb (String.eqb (topic (snd kv))) topicLabels = true)
    by (apply forallb_forall; vm_compute; reflexivity).
  assert (Hext : forall kv, In kv extendedTopics ->
            Qle_bool 0.65 (conf (snd kv)) && Qle_bool (conf (snd kv)) 0.98
            && existsb (String.eqb (top (snd kv))) topicLabels = true)
    by (apply forallb_forall; vm_compute; reflexivity).
  assert (Hin : forall t, existsb (String.eqb t) topicLabels = true -> In t topicLabels).
  { intros t H. apply existsb_exists in H as (x & Hx & E).
    apply String.eqb_eq in E. now subst. }
  destruct (callback_shapes q pd)
    as [[_ ->] | [(body & _ & ->) | [(kv & Hkv & _ & ->) | (kv & Hkv & _ & _ & ->)]]];
    cbn [resConfidence resTopic].
  - repeat split; [discriminate | discriminate | simpl; auto 10].
  - repeat split; [discriminate | discriminate | simpl; auto 10].
  - specialize (Hkb kv Hkv). apply andb_true_iff in Hkb as [Hq Ht].
    apply andb_true_iff in Hq as [Hlo Hhi].
    repeat split; [now apply Qle_bool_iff | now apply Qle_bool_iff | now apply Hin].
  - specialize (Hext kv Hkv). apply andb_true_iff in Hext as [Hq Ht].
    apply andb_true_iff in Hq as [Hlo Hhi].
    repeat split; [now apply Qle_bool_iff | now apply Qle_bool_iff | now apply Hin].
Qed.

(** X2. Whatever the query, the resolved confidence lies between 0.65 and
    0.98 and the resolved topic is one of seven fixed labels. *)
Theorem resolved_confidence_and_topic (query : string)
        (history : list HistoryEntry) (d : Draws) :
  let r := snd (generateAIResponse query history d) in
  (0.65 <= resConfidence r)%Q /\ (resConfidence r <= 0.98)%Q /\
  In (resTopic r) topicLabels.
Proof. intros r. apply callback_confidence_topic. Qed.




Lemma contains_trans (a b c : string) :
  contains a b -> contains b c -> contains a c.
Proof.
  intros (x & y & ->) (u & v & ->). exists (x ++ u)%string, (v ++ y)%string.
  now rewrite !string_app_assoc.
Qed.

Lemma includes_trans (a b c : string) :
  includes a b = true -> includes b c = true -> includes a c = true.
Proof. rewrite !includes_true. apply contains_trans. Qed.

Lemma filter_length_le {A : Type} (f : A -> bool) (l : list A) :
  length (filter f l) <= length l.
Proof. induction l as [|x l IH]; simpl; [lia|]. destruct (f x); simpl; lia. Qed.

Lemma filter_length_mono {A : Type} (f g : A -> bool) (l : list A) :
  (forall x, f x = true -> g x = true) ->
  length (filter f l) <= length (filter g l).
Proof.
  intros H. induction l as [|x l IH]; simpl; [lia|].
  destruct (f x) eqn:Ef.
  - rewrite (H x Ef). simpl. lia.
  - destruct (g x); simpl; lia.
Qed.

Lemma scoreKey_cases (q key : string) :
  scoreKey q key =
  if includes q key then length (split " " key) * 3
  else length (filter (fun w => includes q w) (split " " key)).
Proof. unfold scoreKey. destruct (includes q key); [reflexivity | apply count_words]. Qed.

(** X5. A query that contains a key as a phrase scores strictly more on that
    key than any query that does not; a score without the phrase is at most
    the number of words of the key, a score with it is three times that. *)
Theorem phrase_outscores_words (q q' key : string) :
  contains q key -> ~ contains q' key ->
  scoreKey q' key <= length (split " " key) /\
  scoreKey q' key < scoreKey q key.
Proof.
  intros H H'. rewrite (scoreKey_phrase q key H), (scoreKey_words q' key H').
  pose proof (filter_length_le (fun w => includes q' w) (split " " key)).
  pose proof (split_nonempty " " key). lia.
Qed.

Lemma phrase_outscores_words_witness :
  scoreKey "sort then quick it" "quick sort"
  < scoreKey "quick sort algorithm is quick" "quick sort".
Proof.
  apply (phrase_outscores_words "quick sort algorithm is quick" "sort then quick it" "quick sort").
  - apply includes_true. vm_compute. reflexivity.
  - apply includes_false. vm_compute. reflexivity.
Defined.

Lemma scoreKey_mono (q q' key : string) :
  contains q' q -> scoreKey q key <= scoreKey q' key.
Proof.
  intros H. apply includes_true in H. rewrite !scoreKey_cases.
  destruct (includes q key) eqn:E.
  - now rewrite (includes_trans q' q key H E).
  - pose proof (filter_length_mono (fun w => includes q w) (fun w => includes q' w)
                  (split " " key)
                  (fun w Hw => includes_trans q' q w H Hw)) as Hm.
    destruct (includes q' key); [|exact Hm].
    pose proof (filter_length_le (fun w => includes q w) (split " " key)). lia.
Qed.

(** X6. Adding text around a query never lowers a score: if the normalised
    query [q'] contains [q], every key scores at least as much on [q'] as on
    [q], and so does the best entry of any table; a query that has a primary
    match keeps having one. *)
Theorem longer_query_scores_no_less (q q' : string)
        (table : list (string * KnowledgeEntry)) :
  contains q' q ->
  (forall key, scoreKey q key <= scoreKey q' key) /\
  snd (bestOf q table) <= snd (bestOf q' table) /\
  (falsy (response (primaryStage q initial)) = false ->
   falsy (response (primaryStage q' initial)) = false).
Proof.
  intros H. split; [intros key; now apply scoreKey_mono|]. split.
  - destruct (bestOf_invariant q table) as [_ [[-> _] | (pre & kv & post & E & _ & <- & _)]];
      [lia|].
    assert (Hkv : In kv table) by (rewrite E; apply in_elt).
    destruct (bestOf_invariant q' table) as [Hmax _]. specialize (Hmax kv Hkv).
    pose proof (scoreKey_mono q q' (fst kv) H). lia.
  - intros F.
    destruct (primaryStage_cases q initial) as [[_ E] | (pre & kv & post & E & H1 & Hs & _)].
    + rewrite E in F. discriminate.
    + assert (Hkv : In kv knowledgeBase) by (rewrite E; apply in_elt).
      assert (H1' : 1 <= snd (bestOf q' knowledgeBase)).
      { apply bestOf_positive. exists kv. split; [assumption|].
        pose proof (scoreKey_mono q q' (fst kv) H). lia. }
      destruct (primaryStage_cases q' initial)
        as [[H0 _] | (pre' & kv' & post' & E' & _ & _ & _ & ->)]; [lia|].
      apply reported_truthy. rewrite E'. apply in_elt.
Qed.

Lemma longer_query_scores_no_less_witness :
  scoreKey "merge sort" "merge sort" <= scoreKey "explain merge sort please" "merge sort".
Proof.
  apply (longer_query_scores_no_less "merge sort" "explain merge sort please" []).
  apply includes_true. vm_compute. reflexivity.
Defined.

Lemma scoreKey_word (q key w : string) :
  In w (split " " key) -> contains q w -> 1 <= scoreKey q key.
Proof.
  intros Hw Hq. rewrite scoreKey_cases. destruct (includes q key).
  - pose proof (split_nonempty " " key). lia.
  - assert (Hin : In w (filter (fun w => includes q w) (split " " key))).
    { apply filter_In. split; [assumption | now apply includes_true]. }
    destruct (filter (fun w => includes q w) (split " " key)); [destruct Hin | simpl; lia].
Qed.

(** X7. One word of one primary key is enough: when the normalised query
    contains any word of any key of the primary table (the one-letter word
    "o" of "big o notation" included), the primary matcher reports an entry,
    the extended table is not read and the fallback is not used. *)
Theorem any_key_word_is_a_primary_match (query : string)
        (history : list HistoryEntry) (d : Draws)
        (kv : string * KnowledgeEntry) (w : string) :
  let q := normalize query in
  In kv knowledgeBase -> In w (split " " (fst kv)) -> contains q w ->
  1 <= snd (bestOf q knowledgeBase) /\
  extendedStage q (primaryStage q initial) = primaryStage q initial /\
  falsy (response (matched q)) = false /\
  resAnswer (snd (generateAIResponse query history d))
  <> Some (fallbackResponse (pickSuggestion (pickDraw d))).
Proof.
  intros q Hkv Hw Hq.
  assert (H1 : 1 <= snd (bestOf q knowledgeBase)).
  { apply bestOf_positive. exists kv. split; [assumption|].
    now apply (scoreKey_word q (fst kv) w). }
  assert (F : falsy (response (matched q)) = false).
  { destruct (matched_shapes q)
      as [[H0 _] | [(body & Hb & E) | [(kv' & Hkv' & _ & E) | (kv' & Hkv' & _ & H0 & E)]]].
    - lia.
    - rewrite E. destruct Hb as [<- | [<- | [<- | []]]]; reflexivity.
    - rewrite E. now apply reported_truthy.
    - lia. }
  split; [exact H1|]. split; [|split; [exact F|]].
  - unfold extendedStage.
    destruct (primaryStage_cases q initial) as [[H0 _] | (p & k & s & E' & _ & _ & _ & ->)];
      [lia|].
    now rewrite reported_truthy by (rewrite E'; apply in_elt).
  - change (snd (generateAIResponse query history d)) with (callback q (pickDraw d)).
    rewrite (callback_truthy q _ F). cbn [resAnswer].
    destruct (matched_shapes q)
      as [[H0 _] | [(body & Hb & E) | [(kv' & Hkv' & _ & E) | (kv' & Hkv' & _ & H0 & E)]]].
    + lia.
    + rewrite E. cbn [response overrideWith]. unfold fallbackResponse.
      destruct Hb as [<- | [<- | [<- | []]]]; intros C; injection C as C; discriminate.
    + rewrite E. cbn [response reported]. intros C. injection C as C.
      assert (Hall : forall kv, In kv knowledgeBase ->
                negb (startsWith (answer (snd kv)) "Interesting") = true)
        by (apply forallb_forall; vm_compute; reflexivity).
      specialize (Hall kv' Hkv'). rewrite C in Hall. unfold fallbackResponse in Hall.
      simpl in Hall. discriminate.
    + lia.
Qed.

Lemma any_key_word_is_a_primary_match_witness :
  resAnswer (snd (generateAIResponse "How to cook pasta?" [] sampleDraws))
  <> Some (fallbackResponse (pickSuggestion (pickDraw sampleDraws))).
Proof.
  apply (any_key_word_is_a_primary_match "How to cook pasta?" [] sampleDraws
           (nth 17 knowledgeBase (EmptyString, mkKnowledgeEntry EmptyString 0 EmptyString))
           "o").
  - vm_compute. tauto.
  - vm_compute. tauto.
  - apply includes_true. vm_compute. reflexivity.
Defined.

(** X8. Four extended entries can never be the answer: a query that contains
    "pointer", "oop", "complexity" or "binary search" contains a word of a
    primary key ("o" or "binary"), so the primary matcher has already
    reported an entry.  The other four keywords, asked alone, are answered by
    their own entry. *)
Theorem shadowed_extended_entries (query : string)
        (history : list HistoryEntry) (d : Draws)
        (kv : string * ExtendedTopic) :
  In kv extendedTopics -> In (fst kv) shadowedKeywords ->
  resAnswer (snd (generateAIResponse query history d)) <> Some (text (snd kv)) /\
  forall kv', In kv' extendedTopics -> ~ In (fst kv') shadowedKeywords ->
    resAnswer (snd (generateAIResponse (fst kv') history d)) = Some (text (snd kv')).
Proof.
  intros Hkv Hsh. split.
  - change (snd (generateAIResponse query history d))
      with (callback (normalize query) (pickDraw d)).
    set (q := normalize query).
    assert (Hhead : forall kv, In kv extendedTopics ->
              negb (startsWith (text (snd kv)) "Interesting") = true)
      by (apply forallb_forall; vm_compute; reflexivity).
    assert (Hover : forall kv, In kv extendedTopics ->
              forallb (fun body => negb (String.eqb body (text (snd kv))))
                      [greetingResponse; thanksResponse; identityResponse] = true)
      by (apply forallb_forall; vm_compute; reflexivity).
    assert (Hkb : forall kv, In kv extendedTopics ->
              forallb (fun kv' : string * KnowledgeEntry =>
                         negb (String.eqb (answer (snd kv')) (text (snd kv))))
                      knowledgeBase = true)
      by (apply forallb_forall; vm_compute; reflexivity).
    assert (Hdist : forall kv, In kv extendedTopics ->
              forallb (fun kv' : string * ExtendedTopic =>
                         negb (String.eqb (text (snd kv')) (text (snd kv)))
                         || String.eqb (fst kv') (fst kv))
                      extendedTopics = true)
      by (apply forallb_forall; vm_compute; reflexivity).
    assert (Hword : forall kw, In kw shadowedKeywords ->
              existsb (fun kv' : string * KnowledgeEntry =>
                         existsb (fun w => includes kw w) (split " " (fst kv')))
                      knowledgeBase = true)
      by (apply forallb_forall; vm_compute; reflexivity).
    destruct (callback_shapes q (pickDraw d))
      as [[_ ->] | [(body & Hb & ->) | [(kv' & Hkv' & _ & ->) | (kv' & Hkv' & Hin & H0 & ->)]]];
      cbn [resAnswer]; intros C; injection C as C.
    + specialize (Hhead kv Hkv). rewrite <- C in Hhead. unfold fallbackResponse in Hhead.
      simpl in Hhead. discriminate.
    + specialize (Hover kv Hkv). rewrite forallb_forall in Hover.
      specialize (Hover body Hb). rewrite C, String.eqb_refl in Hover. discriminate.
    + specialize (Hkb kv Hkv). rewrite forallb_forall in Hkb.
      specialize (Hkb kv' Hkv'). rewrite C, String.eqb_refl in Hkb. discriminate.
    + specialize (Hdist kv Hkv). rewrite forallb_forall in Hdist.
      specialize (Hdist kv' Hkv'). rewrite C, String.eqb_refl in Hdist.
      simpl in Hdist. apply String.eqb_eq in Hdist.
      specialize (Hword (fst kv) Hsh). apply existsb_exists in Hword as (k & Hk & Hw).
      apply existsb_exists in Hw as (w & Hw & Hinc).
      rewrite Hdist in Hin.
      assert (H1 : 1 <= snd (bestOf q knowledgeBase)).
      { apply bestOf_positive. exists k. split; [assumption|].
        apply (scoreKey_word q (fst k) w Hw). apply includes_true.
        now apply (includes_trans q (fst kv) w). }
      lia.
  - intros kv' Hkv' Hn.
    assert (Hall : forall kv', In kv' extendedTopics ->
              existsb (String.eqb (fst kv')) shadowedKeywords
              || match resAnswer (callback (normalize (fst kv')) 0) with
                 | Some a => String.eqb a (text (snd kv'))
                 | None => false
                 end = true)
      by (apply forallb_forall; vm_compute; reflexivity).
    specialize (Hall kv' Hkv'). apply orb_true_iff in Hall as [Hs | Ha].
    + apply existsb_exists in Hs as (x & Hx & E). apply String.eqb_eq in E.
      subst x. contradiction.
    + change (snd (generateAIResponse (fst kv') history d))
        with (callback (normalize (fst kv')) (pickDraw d)).
      assert (F : falsy (response (matched (normalize (fst kv')))) = false).
      { destruct (falsy (response (matched (normalize (fst kv'))))) eqn:F; [|reflexivity].
        rewrite (callback_fallback _ 0 F) in Ha. cbn [resAnswer] in Ha.
        apply String.eqb_eq in Ha.
        assert (Hhead : forall kv, In kv extendedTopics ->
                  negb (startsWith (text (snd kv)) "Interesting") = true)
          by (apply forallb_forall; vm_compute; reflexivity).
        specialize (Hhead kv' Hkv'). rewrite <- Ha in Hhead.
        unfold fallbackResponse in Hhead. simpl in Hhead. discriminate. }
      rewrite (callback_truthy _ _ F). rewrite (callback_truthy _ 0 F) in Ha.
      cbn [resAnswer] in *. destruct (response (matched (normalize (fst kv')))) as [a|];
        [|discriminate]. apply String.eqb_eq in Ha. now subst.
Qed.

Lemma shadowed_extended_entries_witness :
  resAnswer (snd (generateAIResponse "What is a pointer in C?" [] sampleDraws))
  <> Some (text (snd (nth 1 extendedTopics (EmptyString, mkExtendedTopic EmptyString 0 EmptyString)))).
Proof.
  apply (shadowed_extended_entries "What is a pointer in C?" [] sampleDraws
           (nth 1 extendedTopics (EmptyString, mkExtendedTopic EmptyString 0 EmptyString))).
  - vm_compute. tauto.
  - vm_compute. tauto.
Defined.

(** X4. Letter case and surrounding white space of a query never matter:
    normalising is idempotent, and two queries that agree up to letter case
    resolve to the same value whatever white space is put around one of
    them. *)
Theorem answer_ignores_case_and_padding (q1 q2 ws1 ws2 : string)
        (history : list HistoryEntry) (d : Draws) :
  toLowerCase q1 = toLowerCase q2 ->
  allWhite ws1 = true -> allWhite ws2 = true ->
  normalize (normalize q1) = normalize q1 /\
  normalize (ws1 ++ q1 ++ ws2) = normalize q2 /\
  generateAIResponse (ws1 ++ q1 ++ ws2) history d = generateAIResponse q2 history d.
Proof.
  intros Hc H1 H2.
  assert (Hn : normalize (ws1 ++ q1 ++ ws2) = normalize q2).
  { rewrite normalize_trim, (trim_padding ws1 ws2 q1 H1 H2), <- normalize_trim.
    unfold normalize. now rewrite Hc. }
  split; [|split; [exact Hn|]].
  - assert (L : forall y, toLowerCase (trim y) = trim (toLowerCase y))
      by (intros y; symmetry; apply normalize_trim).
    unfold normalize. now rewrite L, toLowerCase_idem, trim_idem.
  - unfold generateAIResponse. now rewrite Hn.
Qed.

Lemma answer_ignores_case_and_padding_witness :
  generateAIResponse "  What is a HEAP?  " [] sampleDraws
  = generateAIResponse "what is a heap?" [] sampleDraws.
Proof.
  apply (answer_ignores_case_and_padding "What is a HEAP?" "what is a heap?" "  " "  "
           [] sampleDraws); reflexivity.
Defined.

Lemma split_cons (sep : ascii) (s : string) :
  exists w ws, split sep s = w :: ws.
Proof.
  induction s as [|c s (w & ws & E)]; simpl.
  - now exists EmptyString, [].
  - destruct (Ascii.eqb c sep); [now eexists; eexists|].
    rewrite E. now eexists; eexists.
Qed.

(** X9. Splitting a string at a character and joining the pieces with that
    character gives the string back; there is one piece more than there are
    separators, and no piece contains the separator. *)
Theorem split_join_roundtrip (sep : ascii) (s : string) :
  join (String sep EmptyString) (split sep s) = s /\
  length (split sep s) = S (countChar sep s) /\
  forall w, In w (split sep s) -> countChar sep w = 0.
Proof.
  induction s as [|c s (IHj & IHl & IHw)].
  - repeat split. intros w [<- | []]. reflexivity.
  - destruct (split_cons sep s) as (w0 & ws & E).
    cbn [split countChar]. rewrite E in *.
    destruct (Ascii.eqb_spec c sep) as [-> | Hne].
    + repeat split.
      * change (join (String sep EmptyString) (EmptyString :: w0 :: ws))
          with (String sep (join (String sep EmptyString) (w0 :: ws))).
        now rewrite IHj.
      * cbn [length] in *. lia.
      * intros w [<- | Hin]; [reflexivity | now apply IHw].
    + repeat split.
      * rewrite <- IHj. destruct ws; reflexivity.
      * cbn [length] in *. lia.
      * intros w [<- | Hin].
        -- cbn [countChar]. destruct (Ascii.eqb_spec c sep); [contradiction|].
           apply IHw. now left.
        -- apply IHw. now right.
Qed.

(** * Properties of the page handlers *)

(** ** The handlers of the page *)

Lemma isEmpty_trimStart (s : string) : isEmpty (trimStart s) = allWhite s.
Proof.
  induction s as [|c s IH]; simpl; [reflexivity|].
  destruct (isWhiteSpace c); [exact IH | reflexivity].
Qed.

Lemma isEmpty_trim (s : string) : isEmpty (trim s) = allWhite s.
Proof.
  unfold trim. rewrite <- isEmpty_trimStart.
  pose proof (trimStart_head s) as H. destruct (trimStart s) as [|c t]; [reflexivity|].
  simpl. now rewrite H.
Qed.


Lemma sliceLast_length {A : Type} (n : nat) (l : list A) :
  length (sliceLast n l) = Nat.min n (length l).
Proof. unfold sliceLast. rewrite length_skipn. lia. Qed.

Lemma sliceLast_incl {A : Type} (n : nat) (l : list A) (x : A) :
  In x (sliceLast n l) -> In x l.
Proof.
  unfold sliceLast. intros H. rewrite <- (firstn_skipn (length l - n) l).
  apply in_or_app. now right.
Qed.

Lemma sliceLast_snoc {A : Type} (n : nat) (l : list A) (x : A) :
  sliceLast (S n) (l ++ [x]) = sliceLast n l ++ [x].
Proof.
  unfold sliceLast. rewrite length_app. simpl.
  replace (length l + 1 - S n) with (length l - n) by lia.
  rewrite skipn_app. replace (length l - n - length l) with 0 by lia. reflexivity.
Qed.

Lemma sliceLast_all {A : Type} (n : nat) (l : list A) :
  length l <= n -> sliceLast n l = l.
Proof. intros H. unfold sliceLast. now replace (length l - n) with 0 by lia. Qed.

(** X10. The history handed to the generator holds at most ten entries, none
    of them a system message, keeps the order of the conversation, and always
    ends with the query being submitted; with fewer than ten user and AI
    messages so far nothing is dropped. *)
Theorem history_window (st : Page.t) :
  let h := conversationHistory (Page.messages (submitted st)) in
  length h <= 10 /\
  (forall e, In e h -> type e <> system) /\
  (exists earlier,
      h = earlier ++ [{| type := user; content := Page.query st |}] /\
      earlier = map (fun m => {| type := Msg.type m; content := Msg.content m |})
                    (sliceLast 9 (filter isUserOrAi (Page.messages st)))) /\
  (length (filter isUserOrAi (Page.messages st)) < 10 ->
   length h = S (length (filter isUserOrAi (Page.messages st)))).
Proof.
  intros h. unfold h, conversationHistory, submitted. cbn [Page.messages].
  rewrite filter_app. cbn [filter isUserOrAi userMessage Msg.type app].
  rewrite (sliceLast_snoc 9). rewrite map_app. cbn [map userMessage Msg.type Msg.content].
  repeat split.
  - rewrite length_app, length_map, sliceLast_length. cbn [length]. lia.
  - intros e Hin. apply in_app_or in Hin as [Hin | [<- | []]]; [|discriminate].
    apply in_map_iff in Hin as (m & <- & Hm). apply sliceLast_incl in Hm.
    apply filter_In in Hm as [_ Hm]. unfold isUserOrAi in Hm. cbn [type].
    destruct (Msg.type m); discriminate || (intros C; discriminate C).
  - eexists. split; reflexivity.
  - intros Hlt. rewrite length_app, length_map, sliceLast_all by lia. cbn [length]. lia.
Qed.

Lemma filterIndexed_all {A : Type} (keep : A -> nat -> bool) (i : nat) (l : list A) :
  (forall x j, i <= j -> keep x j = true) -> filterIndexed keep i l = l.
Proof.
  revert i; induction l as [|x l IH]; intros i H; simpl; [reflexivity|].
  rewrite (H x i) by lia. f_equal. apply IH. intros y j Hj. apply H. lia.
Qed.

Lemma filterIndexed_remove {A : Type} (l : list A) (i n idx : nat) :
  idx = i + n ->
  filterIndexed (fun _ j => negb (j =? idx)) i l = firstn n l ++ skipn (S n) l.
Proof.
  revert i n; induction l as [|x l IH]; intros i n ->; simpl.
  - now destruct n.
  - destruct n as [|n].
    + rewrite Nat.add_0_r, Nat.eqb_refl. simpl.
      apply filterIndexed_all. intros y j Hj.
      apply negb_true_iff, Nat.eqb_neq. lia.
    + replace (i =? i + S n) with false by (symmetry; apply Nat.eqb_neq; lia).
      simpl. f_equal. apply IH. lia.
Qed.

(** X17. Removing an attachment drops exactly the file at that position and
    keeps the others in order; a position past the end changes nothing; and
    removing the file that an upload has just appended undoes the
    attachment. *)
Theorem removeFile_drops_one (index : nat) (st : Page.t) :
  Page.uploadedFiles (removeFile index st)
  = firstn index (Page.uploadedFiles st) ++ skipn (S index) (Page.uploadedFiles st) /\
  (index < length (Page.uploadedFiles st) ->
   S (length (Page.uploadedFiles (removeFile index st)))
   = length (Page.uploadedFiles st)) /\
  (length (Page.uploadedFiles st) <= index ->
   Page.uploadedFiles (removeFile index st) = Page.uploadedFiles st) /\
  (forall f, acceptedType f = true ->
     Page.uploadedFiles
       (removeFile (length (Page.uploadedFiles st)) (handleFileUpload [f] st))
     = Page.uploadedFiles st).
Proof.
  assert (E : forall i s, Page.uploadedFiles (removeFile i s)
              = firstn i (Page.uploadedFiles s) ++ skipn (S i) (Page.uploadedFiles s)).
  { intros i s. unfold removeFile. cbn [Page.uploadedFiles].
    now apply filterIndexed_remove. }
  split; [apply E|]. split; [|split].
  - intros H. rewrite E, length_app, length_firstn, length_skipn. lia.
  - intros H. rewrite E, firstn_all2, skipn_all2 by lia. apply app_nil_r.
  - intros f Hf. rewrite E. unfold handleFileUpload. cbn [filter]. rewrite Hf.
    cbn [length Nat.ltb Nat.leb Page.uploadedFiles].
    rewrite firstn_app, Nat.sub_diag, firstn_all. cbn [firstn].
    rewrite skipn_all2 by (rewrite length_app; simpl; lia).
    now rewrite !app_nil_r.
Qed.

Lemma removeFile_drops_one_witness :
  S (length (Page.uploadedFiles
       (removeFile 0 (handleFileUpload [File.mk "notes.txt" "text/plain"] mounted))))
  = length (Page.uploadedFiles (handleFileUpload [File.mk "notes.txt" "text/plain"] mounted)).
Proof.
  apply (removeFile_drops_one 0 (handleFileUpload [File.mk "notes.txt" "text/plain"] mounted)).
  vm_compute. lia.
Defined.

Lemma history_window_witness :
  length (conversationHistory (Page.messages (submitted mounted))) = 2.
Proof.
  apply (history_window mounted). vm_compute. lia.
Defined.

Lemma nothingToSend_true (st : Page.t) :
  nothingToSend st = true <->
  allWhite (Page.query st) = true /\ Page.uploadedFiles st = [].
Proof.
  unfold nothingToSend. rewrite andb_true_iff, isEmpty_trim, Nat.eqb_eq.
  split; intros [H1 H2]; split; try assumption.
  - now destruct (Page.uploadedFiles st).
  - now rewrite H2.
Qed.


Lemma handleSubmit_sent (sd : SubmitDraws) (st : Page.t) :
  nothingToSend st = false ->
  handleSubmit sd st
  = {| Page.query := EmptyString;
       Page.messages :=
         Page.messages st
         ++ [userMessage st;
             aiMessage (snd (generateAIResponse (Page.query st) [] (engineDraws sd)))
                       (prefixDraw sd) (suffixDraw sd)];
       Page.uploadedFiles := [];
       Page.loading := false |}.
Proof.
  intros F. unfold handleSubmit. rewrite F. unfold answered, submitted.
  cbn [Page.messages Page.query Page.uploadedFiles]. now rewrite <- app_assoc.
Qed.

Lemma nothingToSend_false (st : Page.t) :
  allWhite (Page.query st) = false \/ Page.uploadedFiles st <> [] ->
  nothingToSend st = false.
Proof.
  intros H. destruct (nothingToSend st) eqn:E; [|reflexivity].
  apply nothingToSend_true in E as [E1 E2]. destruct H as [H | H]; congruence.
Qed.

(** X11. A submission is ignored exactly when the query is blank (white space
    only) and nothing is attached.  Otherwise the page gains two messages,
    the user's and then the AI's, the input and the attachments are cleared,
    and [loading] is off again; the AI message carries the resolved
    confidence and topic unchanged and does not depend on the earlier
    conversation. *)
Theorem submission_appends_question_and_answer (sd : SubmitDraws) (st : Page.t) :
  (allWhite (Page.query st) = true /\ Page.uploadedFiles st = [] ->
   handleSubmit sd st = st) /\
  (allWhite (Page.query st) = false \/ Page.uploadedFiles st <> [] ->
   let data := snd (generateAIResponse (Page.query st) [] (engineDraws sd)) in
   handleSubmit sd st
   = {| Page.query := EmptyString;
        Page.messages :=
          Page.messages st
          ++ [userMessage st; aiMessage data (prefixDraw sd) (suffixDraw sd)];
        Page.uploadedFiles := [];
        Page.loading := false |} /\
   Msg.confidence (aiMessage data (prefixDraw sd) (suffixDraw sd))
   = Some (resConfidence data) /\
   Msg.topic (aiMessage data (prefixDraw sd) (suffixDraw sd))
   = Some (resTopic data)).
Proof.
  split.
  - intros H. apply nothingToSend_true in H. unfold handleSubmit. now rewrite H.
  - intros H data. apply nothingToSend_false in H.
    rewrite (handleSubmit_sent sd st H). repeat split.
Qed.

Lemma submission_appends_question_and_answer_witness :
  length (Page.messages
            (handleSubmit (mkSubmitDraws sampleDraws 0.5 0.5)
                          (handleQuickQuery "What is a heap?" mounted))) = 3.
Proof.
  destruct (submission_appends_question_and_answer
              (mkSubmitDraws sampleDraws 0.5 0.5)
              (handleQuickQuery "What is a heap?" mounted)) as [_ H].
  destruct H as [E _]; [left; vm_compute; reflexivity|].
  rewrite E. reflexivity.
Defined.



Lemma filterIndexed_incl {A : Type} (keep : A -> nat -> bool) (i : nat)
      (l : list A) (x : A) :
  In x (filterIndexed keep i l) -> In x l.
Proof.
  revert i; induction l as [|y l IH]; intros i; simpl; [tauto|].
  destruct (keep y i); simpl; intros H.
  - destruct H as [H | H]; [now left | right; now apply (IH (S i))].
  - right. now apply (IH (S i)).
Qed.

Lemma handle_invariant (st : Page.t) (e : Event) :
  pageInvariant st -> pageInvariant (handle st e).
Proof.
  intros (Hm & Hl & Hf & Hc). destruct e as [text | sd | selected | index | confirmed];
    cbn [handle]; unfold pageInvariant.
  - unfold handleQuickQuery. cbn [Page.messages Page.loading Page.uploadedFiles].
    repeat split; try assumption; now apply (Hc m c).
  - destruct (nothingToSend st) eqn:F.
    + unfold handleSubmit. rewrite F. repeat split; try assumption; now apply (Hc m c).
    + unfold handleSubmit. rewrite F. unfold answered, submitted.
      cbn [Page.messages Page.loading Page.uploadedFiles]. split; [|split; [|split]].
      * intros C. apply app_eq_nil in C as [_ C]. discriminate.
      * reflexivity.
      * intros f [].
      * intros m c Hin Hmc. apply in_app_or in Hin as [Hin | [<- | []]].
        -- apply in_app_or in Hin as [Hin | [<- | []]]; [now apply (Hc m c)|].
           discriminate.
        -- cbn [aiMessage Msg.confidence Msg.type composeMessage msgConfidence] in *.
           injection Hmc as <-. split; [reflexivity|].
           pose proof (callback_confidence_topic (normalize (Page.query st))
                         (pickDraw (engineDraws sd))) as (H1 & H2 & _).
           split; assumption.
  - unfold handleFileUpload. destruct (0 <? length (filter acceptedType selected)).
    + cbn [Page.messages Page.loading Page.uploadedFiles]. split; [|split; [|split]].
      * intros C. apply app_eq_nil in C as [_ C]. discriminate.
      * assumption.
      * intros f Hin. apply in_app_or in Hin as [Hin | Hin]; [now apply Hf|].
        now apply filter_In in Hin.
      * intros m c Hin Hmc. apply in_app_or in Hin as [Hin | [<- | []]];
          [now apply (Hc m c) | discriminate].
    + repeat split; try assumption; now apply (Hc m c).
  - unfold removeFile. cbn [Page.messages Page.loading Page.uploadedFiles].
    repeat split; try assumption; try (now apply (Hc m c)).
    intros f Hin. apply Hf. now apply filterIndexed_incl in Hin.
  - unfold clearChat.
    destruct confirmed; [|repeat split; try assumption; now apply (Hc m c)].
    cbn [Page.messages Page.loading Page.uploadedFiles]. split; [|split; [|split]].
    + discriminate.
    + assumption.
    + assumption.
    + intros m c [<- | []]. discriminate.
Qed.

Lemma session_pageInvariant (events : list Event) : pageInvariant (session events).
Proof.
  unfold session. induction events as [|e events IH] using rev_ind.
  - simpl. repeat split; try discriminate.
    + intros f [].
    + destruct H as [<- | []]. discriminate H0.
    + destruct H as [<- | []]. discriminate H0.
    + destruct H as [<- | []]. discriminate H0.
  - rewrite fold_left_app. simpl. now apply handle_invariant.
Qed.

(** X14. After any sequence of events on the mounted page: the conversation is
    never empty, every attachment has one of the three accepted MIME types,
    and every message that shows a confidence is an AI message whose
    confidence lies between 0.65 and 0.98, so its badge is "high" or "medium"
    and never "low". *)
Theorem session_invariants (events : list Event) :
  Page.messages (session events) <> [] /\
  (forall f, In f (Page.uploadedFiles (session events)) -> acceptedType f = true) /\
  (forall m c, In m (Page.messages (session events)) -> Msg.confidence m = Some c ->
     Msg.type m = ai /\ (0.65 <= c)%Q /\ (c <= 0.98)%Q /\
     confidenceBadge c <> "low").
Proof.
  destruct (session_pageInvariant events) as (Hm & Hl & Hf & Hc). repeat split; try assumption;
    try (now apply (Hc m c)).
  destruct (Hc m c H H0) as (_ & Hlo & _). unfold confidenceBadge.
  destruct (Qle_bool c 0.7); simpl; [|discriminate].
  destruct (Qle_bool c 0.4) eqn:E; simpl; [|discriminate].
  apply Qle_bool_iff in E. exfalso.
  assert (C : (0.65 <= 0.4)%Q) by (eapply Qle_trans; eassumption).
  vm_compute in C. now apply C.
Qed.

Lemma session_invariants_witness :
  confidenceBadge 0.95 <> "low".
Proof.
  destruct (session_invariants [Typed "explain recursion";
                                Submitted (mkSubmitDraws sampleDraws 0.5 0.5)])
    as (_ & _ & H).
  apply (H (last (Page.messages
                    (session [Typed "explain recursion";
                              Submitted (mkSubmitDraws sampleDraws 0.5 0.5)]))
                 (plainMessage system EmptyString)) 0.95%Q).
  - vm_compute. tauto.
  - vm_compute. reflexivity.
Defined.



Lemma filter_nil_iff {A : Type} (f : A -> bool) (l : list A) :
  filter f l = [] <-> forall x, In x l -> f x = false.
Proof.
  induction l as [|y l IH]; simpl.
  - split; [intros _ x [] | reflexivity].
  - destruct (f y) eqn:E; split.
    + discriminate.
    + intros H. specialize (H y (or_introl eq_refl)). congruence.
    + intros H x [<- | Hin]; [assumption | now apply IH].
    + intros H. apply IH. intros x Hin. apply H. now right.
Qed.

(** X16. Choosing files attaches the ones with an accepted MIME type, in the
    order chosen, after those already attached, and reports them in one
    system message; when none of the chosen files is accepted the page does
    not change at all, and an accepted file is never left out. *)
Theorem upload_keeps_accepted_files (selected : list File.t) (st : Page.t) :
  Page.uploadedFiles (handleFileUpload selected st)
  = Page.uploadedFiles st ++ filter acceptedType selected /\
  ((forall f, In f selected -> acceptedType f = false) ->
   handleFileUpload selected st = st) /\
  ((exists f, In f selected /\ acceptedType f = true) ->
   Page.messages (handleFileUpload selected st)
   = Page.messages st
     ++ [plainMessage system
           (uploadedPrefix ++ join ", " (map File.name (filter acceptedType selected)))]) /\
  (forall f, In f selected -> acceptedType f = true ->
     In f (Page.uploadedFiles (handleFileUpload selected st))).
Proof.
  assert (E : Page.uploadedFiles (handleFileUpload selected st)
              = Page.uploadedFiles st ++ filter acceptedType selected).
  { unfold handleFileUpload. destruct (filter acceptedType selected) eqn:Ef.
    - simpl. now rewrite app_nil_r.
    - reflexivity. }
  split; [exact E|]. split; [|split].
  - intros H. apply filter_nil_iff in H. unfold handleFileUpload. now rewrite H.
  - intros (f & Hin & Hf). unfold handleFileUpload.
    destruct (filter acceptedType selected) eqn:Ef; [|reflexivity].
    rewrite filter_nil_iff in Ef. rewrite (Ef f Hin) in Hf. discriminate.
  - intros f Hin Hf. rewrite E. apply in_or_app. right. apply filter_In. now split.
Qed.

Lemma upload_keeps_accepted_files_witness :
  handleFileUpload [File.mk "song.mp3" "audio/mpeg"] mounted = mounted.
Proof.
  apply (upload_keeps_accepted_files [File.mk "song.mp3" "audio/mpeg"] mounted).
  intros f [<- | []]. reflexivity.
Defined.




Lemma split_join_roundtrip_witness :
  countChar " " "law" = 0.
Proof.
  apply (split_join_roundtrip " " "first law of thermodynamics").
  vm_compute. tauto.
Defined.
